(** * Deskflow: secure listen socket and GUI network monitor

    A shallow embedding of

    - [SecureListenSocket::accept]  (src/lib/net/SecureListenSocket.cpp)
    - [NetworkMonitor]              (src/lib/gui/core/network/NetworkMonitor.cpp)

    The C++ is stateful and uses exceptions; [accept] is embedded in a small
    state/exception/trace monad, the network monitor as pure functions over
    a snapshot of the host's interfaces with explicit state passing. *)

From Stdlib Require Import List String Ascii ZArith Bool Lia Permutation.
Import ListNotations.

Local Open Scope string_scope.
Local Open Scope list_scope.

(* ================================================================== *)
(** * SecureListenSocket *)
(* ================================================================== *)

Module SecureListenSocket.

(** ** Exceptions, sockets, trace events *)

(** The two handlers of [accept] split the exceptions of the program in two
    classes: [catch (XArchNetwork &)] (line 79) and, for everything else
    derived from [std::exception], [catch (std::exception &ex)] (line 85). *)
Inductive exception : Type :=
| XArchNetwork
| StdException.

Inductive outcome (A : Type) : Type :=
| Normal (a : A)
| Thrown (e : exception).
Arguments Normal {A} a.
Arguments Thrown {A} e.

(** [ArchSocket]: the handle returned by [ARCH->acceptSocket]. *)
Definition ArchSocket := nat.

(** Modelled from the spec: the [SecurityLevel] enumeration (declared in a
    header that is not part of the sources), "enumerated policy (e.g.,
    required client authentication) configured at construction". *)
Inductive SecurityLevel : Type :=
| PlainText
| Encrypted
| PeerAuth.

(** The object built by [new SecureSocket(m_events, m_socketMultiplexer,
    <accepted handle>, m_securityLevel)]. *)
Record SecureSocket : Type := mkSecureSocket {
  sock_handle : ArchSocket;
  sock_level : SecurityLevel
}.

(** What [accept] does to its collaborators, in program order. *)
Inductive event : Type :=
| EvAcceptSocket                      (* line 53: ARCH->acceptSocket(m_socket, NULL) *)
| EvNewSecureSocket                   (* line 53: new SecureSocket(...) *)
| EvInitSsl                           (* line 54: socket->initSsl(true) *)
| EvSetListeningJob                   (* lines 57, 82, 88: setListeningJob() *)
| EvGetProfileDirectory               (* line 62: certificate path resolution *)
| EvLoadCertificates (path : string)  (* line 70: socket->loadCertificates(path) *)
| EvSecureAccept                      (* line 76: socket->secureAccept() *)
| EvDelete (s : SecureSocket).        (* lines 72, 81, 87: delete socket *)

(** The listener's registration with the socket multiplexer.  The readiness
    job of a listen socket is consumed when it fires, so the listener is
    [Unarmed] when [accept] is entered and stays so until
    [setListeningJob] registers a job again. *)
Inductive Registration : Type :=
| Unarmed
| Armed.

(** ** The state/exception/trace monad *)

(** The frame of one [accept] call: the listener's registration and the local
    variable [socket] (line 51), which the handlers read. *)
Record Frame : Type := mkFrame {
  registration : Registration;
  socket : option SecureSocket
}.

Definition M (A : Type) : Type := Frame -> outcome A * Frame * list event.

Definition ret {A : Type} (a : A) : M A :=
  fun f => (Normal a, f, []).

Definition bind {A B : Type} (m : M A) (k : A -> M B) : M B :=
  fun f =>
    match m f with
    | (Normal a, f1, l1) =>
        match k a f1 with
        | (r, f2, l2) => (r, f2, l1 ++ l2)
        end
    | (Thrown e, f1, l1) => (Thrown e, f1, l1)
    end.

Definition throw {A : Type} (e : exception) : M A :=
  fun f => (Thrown e, f, []).

(** [try { body } catch (...) { handler }]: the handler runs in the frame the
    body left behind. *)
Definition try_catch {A : Type} (body : M A) (handler : exception -> M A) : M A :=
  fun f =>
    match body f with
    | (Normal a, f1, l1) => (Normal a, f1, l1)
    | (Thrown e, f1, l1) =>
        match handler e f1 with
        | (r, f2, l2) => (r, f2, l1 ++ l2)
        end
    end.

Notation "x <- m ;; k" := (bind m (fun x => k))
  (at level 61, m at next level, right associativity).
Notation "m ;;; k" := (bind m (fun _ => k))
  (at level 61, right associativity).

(** A call to a collaborator whose result is fixed by the environment. *)
Definition call {A : Type} (ev : event) (o : outcome A) : M A :=
  fun f => (o, f, [ev]).

Definition get_socket : M (option SecureSocket) :=
  fun f => (Normal (socket f), f, []).

Definition set_socket (s : option SecureSocket) : M unit :=
  fun f => (Normal tt, mkFrame (registration f) s, []).

(** Modelled from the spec: [TCPListenSocket::setListeningJob] (base class,
    not part of the sources) registers the listener's readiness job with the
    multiplexer ("register(job, socketHandle, READ)"); a socket has at most
    one registration, so arming an armed listener leaves it armed. *)
Definition setListeningJob : M unit :=
  fun f => (Normal tt, mkFrame Armed (socket f), [EvSetListeningJob]).

(** [delete socket]: the pointer variable keeps its (dangling) value. *)
Definition delete (s : SecureSocket) : M unit :=
  fun f => (Normal tt, f, [EvDelete s]).

(** ** Certificate path resolution (lines 31-33, 60-68) *)

Definition s_certificateDir : string := "tls".
Definition s_certificateFileExt : string := "pem".

(** [std::string::c_str()] read by [%s]: the characters before the first NUL. *)
Fixpoint c_str (s : string) : string :=
  match s with
  | EmptyString => EmptyString
  | String c r => if Ascii.eqb c zero then EmptyString else String c (c_str r)
  end.

(** [deskflow::string::sprintf] restricted to the [%s] directive, the only
    one the format of line 62 uses; other characters are copied. *)
Fixpoint sprintf (fmt : string) (args : list string) : string :=
  match fmt with
  | EmptyString => EmptyString
  | String c rest =>
      if Ascii.eqb c "%" then
        match rest with
        | String d rest' =>
            if Ascii.eqb d "s" then
              match args with
              | a :: args' => (c_str a ++ sprintf rest' args')%string
              | [] => sprintf rest' []
              end
            else String c (String d (sprintf rest' args))
        | EmptyString => String c EmptyString
        end
      else String c (sprintf rest args)
  end.

Definition empty (s : string) : bool :=
  match s with
  | EmptyString => true
  | String _ _ => false
  end.

(** Lines 61-68.  [tlsCertFile] is [ArgParser::argsBase().m_tlsCertFile],
    [profileDirectory] is [ARCH->getProfileDirectory()], [kAppId] the
    application identifier of common/constants.h. *)
Definition certificateFilename (tlsCertFile profileDirectory kAppId : string) : string :=
  let certificateFilename :=
    sprintf "%s/%s/%s.%s"
            [profileDirectory; s_certificateDir; kAppId; s_certificateFileExt] in
  if negb (empty tlsCertFile) then tlsCertFile else certificateFilename.

(** ** The environment of one call *)

(** What the file system holds at a path. *)
Inductive Bundle : Type :=
| Missing
| Unreadable
| Invalid
| Valid.

Record Env : Type := mkEnv {
  m_securityLevel : SecurityLevel;
  (* line 53: ARCH->acceptSocket(m_socket, NULL), the raw accept; a
     transient accept race and an OS failure both arrive as an exception of
     the network class *)
  acceptSocket : outcome ArchSocket;
  (* line 53: the allocation and the constructor of the SecureSocket *)
  newSecureSocket : outcome unit;
  initSsl : outcome unit;
  getProfileDirectory : string;
  kAppId : string;
  m_tlsCertFile : string;
  bundleAt : string -> Bundle;
  secureAccept : outcome unit
}.

(** Modelled from the spec: [SecureSocket::loadCertificates] (not part of the
    sources), "loadCertificates(path) -> success/failure", failing when the
    "bundle [is] missing/unreadable/invalid". *)
Definition loadCertificates (env : Env) (path : string) : M bool :=
  call (EvLoadCertificates path)
       (Normal match bundleAt env path with
               | Valid => true
               | _ => false
               end).

(** ** SecureListenSocket::accept (lines 49-92) *)

Definition cleanup : M unit :=
  s <- get_socket ;;
  match s with
  | Some sock => delete sock ;;; setListeningJob
  | None => ret tt
  end.

Definition accept_try (env : Env) : M (option SecureSocket) :=
  fd <- call EvAcceptSocket (acceptSocket env) ;;
  call EvNewSecureSocket (newSecureSocket env) ;;;
  set_socket (Some (mkSecureSocket fd (m_securityLevel env))) ;;;
  call EvInitSsl (initSsl env) ;;;
  s <- get_socket ;;
  match s with
  | Some _ => setListeningJob
  | None => ret tt
  end ;;;
  dir <- call EvGetProfileDirectory (Normal (getProfileDirectory env)) ;;
  let path := certificateFilename (m_tlsCertFile env) dir (kAppId env) in
  loaded <- loadCertificates env path ;;
  if negb loaded then
    s <- get_socket ;;
    match s with
    | Some sock => delete sock
    | None => ret tt
    end ;;;
    ret None
  else
    call EvSecureAccept (secureAccept env) ;;;
    get_socket.

Definition accept_catch (e : exception) : M (option SecureSocket) :=
  match e with
  | XArchNetwork => cleanup ;;; ret None
  | StdException => cleanup ;;; throw StdException
  end.

Definition accept_frame (env : Env) : M (option SecureSocket) :=
  set_socket None ;;;
  try_catch (accept_try env) accept_catch.

(** One call of [accept()] on a listener whose registration is [reg]: the
    result (a socket, [None] for NULL, or a propagated exception), the
    registration afterwards and the events of the call. *)
Definition accept (env : Env) (reg : Registration)
  : outcome (option SecureSocket) * Registration * list event :=
  match accept_frame env (mkFrame reg None) with
  | (r, f, evs) => (r, registration f, evs)
  end.

Definition result (x : outcome (option SecureSocket) * Registration * list event) :=
  fst (fst x).
Definition registered (x : outcome (option SecureSocket) * Registration * list event) :=
  snd (fst x).
Definition events (x : outcome (option SecureSocket) * Registration * list event) :=
  snd x.

(** ** Observations on the outcome of a call *)

Definition is_rearm (e : event) : bool :=
  match e with
  | EvSetListeningJob => true
  | _ => false
  end.

(** How often the call registered the listening job. *)
Definition rearms (evs : list event) : nat :=
  List.length (filter is_rearm evs).

(** The paths the call tried to load certificates from, in order. *)
Definition loads (evs : list event) : list string :=
  flat_map (fun e => match e with
                     | EvLoadCertificates p => [p]
                     | _ => []
                     end) evs.

(** Certificate resolution, certificate loading and handshake initiation. *)
Definition is_upgrade_work (e : event) : bool :=
  match e with
  | EvGetProfileDirectory | EvLoadCertificates _ | EvSecureAccept => true
  | _ => false
  end.

(** No upgrade work in [evs] unless a re-arm came before it ([armed]: one
    was seen already). *)
Fixpoint guarded (armed : bool) (evs : list event) : bool :=
  match evs with
  | [] => true
  | e :: rest =>
      if is_upgrade_work e then armed && guarded armed rest
      else guarded (armed || is_rearm e) rest
  end.

(** The path the call resolves, the socket it builds, whether the load
    succeeds. *)
Definition resolved (env : Env) : string :=
  certificateFilename (m_tlsCertFile env) (getProfileDirectory env) (kAppId env).

Definition accepted (env : Env) (fd : ArchSocket) : SecureSocket :=
  mkSecureSocket fd (m_securityLevel env).

Definition loaded (env : Env) : bool :=
  match bundleAt env (resolved env) with
  | Valid => true
  | _ => false
  end.

(** Lines 53-54 complete: the raw accept returned [fd], the connection
    object was built and its TLS context initialised. *)
Definition connected (env : Env) (fd : ArchSocket) : Prop :=
  acceptSocket env = Normal fd
  /\ newSecureSocket env = Normal tt
  /\ initSsl env = Normal tt.

Fixpoint nul_free (s : string) : bool :=
  match s with
  | EmptyString => true
  | String c r => negb (Ascii.eqb c zero) && nul_free r
  end.

Definition is_delete (e : event) : bool :=
  match e with
  | EvDelete _ => true
  | _ => false
  end.

(** The connection objects the call deleted, in order. *)
Definition deletes (evs : list event) : list event := filter is_delete evs.

(** ** Sample environments *)

Definition bundles (valid : string) (path : string) : Bundle :=
  if String.eqb path valid then Valid else Missing.

(** A client connects; the default bundle is in place. *)
Definition env_default : Env :=
  mkEnv Encrypted (Normal 7%nat) (Normal tt) (Normal tt) "/home/u/.config/app" "deskflow" ""
        (bundles "/home/u/.config/app/tls/deskflow.pem") (Normal tt).

(** A client connects; the override names a file that does not exist, the
    default bundle is in place. *)
Definition env_override : Env :=
  mkEnv Encrypted (Normal 7%nat) (Normal tt) (Normal tt) "/home/u/.config/app" "deskflow" "X"
        (bundles "/home/u/.config/app/tls/deskflow.pem") (Normal tt).

(** The raw accept fails in the network layer. *)
Definition env_network_failure : Env :=
  mkEnv Encrypted (Thrown XArchNetwork) (Normal tt) (Normal tt) "/home/u/.config/app" "deskflow" ""
        (bundles "/home/u/.config/app/tls/deskflow.pem") (Normal tt).

(** A client connects, the bundle loads, and starting the handshake raises
    outside the network class. *)
Definition env_handshake_failure : Env :=
  mkEnv Encrypted (Normal 7%nat) (Normal tt) (Normal tt) "/home/u/.config/app" "deskflow" ""
        (bundles "/home/u/.config/app/tls/deskflow.pem") (Thrown StdException).

(** The raw accept fails outside the network layer. *)
Definition env_unexpected_failure : Env :=
  mkEnv Encrypted (Thrown StdException) (Normal tt) (Normal tt) "/home/u/.config/app" "deskflow" ""
        (bundles "/home/u/.config/app/tls/deskflow.pem") (Normal tt).

End SecureListenSocket.

(* ================================================================== *)
(** * NetworkMonitor *)
(* ================================================================== *)

Module NetworkMonitor.

Local Open Scope Z_scope.

(** ** The Qt types the monitor works on *)

(** [QAbstractSocket::NetworkLayerProtocol]. *)
Inductive NetworkLayerProtocol : Type :=
| IPv4Protocol
| IPv6Protocol
| AnyIPProtocol
| UnknownNetworkLayerProtocol.

(** [QHostAddress]: the null address [QHostAddress()], the wildcard, an IPv4
    address as its 32-bit number, an IPv6 address as its 128-bit number. *)
Inductive QHostAddress : Type :=
| NullAddress
| AnyAddress
| IPv4Address (a : Z)
| IPv6Address (a : Z).

Definition protocol (address : QHostAddress) : NetworkLayerProtocol :=
  match address with
  | NullAddress => UnknownNetworkLayerProtocol
  | AnyAddress => AnyIPProtocol
  | IPv4Address _ => IPv4Protocol
  | IPv6Address _ => IPv6Protocol
  end.

Definition isNull (address : QHostAddress) : bool :=
  match address with
  | NullAddress => true
  | _ => false
  end.

(** [QHostAddress::operator==] (strict conversion: same protocol, same bits). *)
Definition eqb (x y : QHostAddress) : bool :=
  match x, y with
  | NullAddress, NullAddress => true
  | AnyAddress, AnyAddress => true
  | IPv4Address a, IPv4Address b => a =? b
  | IPv6Address a, IPv6Address b => a =? b
  | _, _ => false
  end.

(** Dotted-quad notation a.b.c.d. *)
Definition ipv4 (a b c d : Z) : QHostAddress :=
  IPv4Address (Z.lor (Z.shiftl a 24) (Z.lor (Z.shiftl b 16) (Z.lor (Z.shiftl c 8) d))).

(** [QHostAddress(QHostAddress::LocalHost)]. *)
Definition LocalHost : QHostAddress := ipv4 127 0 0 1.

(** [QHostAddress::isInSubnet(subnet, netmask)]: both of one protocol and
    equal on their leading [netmask] bits. *)
Definition isInSubnet (address : QHostAddress) (subnet : QHostAddress * Z) : bool :=
  let (net, netmask) := subnet in
  if netmask <? 0 then false
  else
    match address, net with
    | IPv4Address a, IPv4Address n =>
        Z.shiftr a (32 - Z.min netmask 32) =? Z.shiftr n (32 - Z.min netmask 32)
    | IPv6Address a, IPv6Address n =>
        Z.shiftr a (128 - Z.min netmask 128) =? Z.shiftr n (128 - Z.min netmask 128)
    | _, _ => false
    end.

(** [QHostAddress::parseSubnet("169.254.0.0/16")] (line 68). *)
Definition subnet_169_254 : QHostAddress * Z := (ipv4 169 254 0 0, 16).

(** [QHostAddress::parseSubnet("192.168/16")] (lines 95, 107): missing
    trailing octets are read as zero. *)
Definition subnet_192_168 : QHostAddress * Z := (ipv4 192 168 0 0, 16).

(** [QNetworkInterface::InterfaceFlag]. *)
Definition IsUp : Z := 1.
Definition IsRunning : Z := 2.
Definition CanBroadcast : Z := 4.
Definition IsLoopBack : Z := 8.
Definition IsPointToPoint : Z := 16.
Definition CanMulticast : Z := 32.

Record QNetworkInterface : Type := mkInterface {
  name : string;
  humanReadableName : string;
  flags : Z;
  addressEntries : list QHostAddress
}.

(** [flags & flag], read as a condition. *)
Definition testFlag (fl flag : Z) : bool := negb (Z.land fl flag =? 0).

(** The host: what [QNetworkInterface::allInterfaces()] returns. *)
Definition Host := list QNetworkInterface.

(** [QNetworkInterface::allAddresses()] is a static member of Qt's class:
    "all IP addresses found on the host machine", that is the address
    entries of every interface of [allInterfaces()] that is in the [IsUp]
    state.  (The addresses of one interface are its [addressEntries()].)
    Line 65 calls it through an object, [interface.allAddresses()], which in
    C++ is the static call. *)
Definition allAddresses (host : Host) : list QHostAddress :=
  flat_map addressEntries (filter (fun p => testFlag (flags p) IsUp) host).

(** ** The monitor's fields (NetworkMonitor.h, lines 120-125) *)

Record Monitor : Type := mkMonitor {
  m_lastAddresses : list QHostAddress;
  m_lastActiveInterfaces : list string;
  m_lastNetworkInterfaces : list QNetworkInterface;
  m_selectedIPAddress : QHostAddress;
  m_isMonitoring : bool
}.

(** ** getAvailableIPv4Addresses (lines 56-76) *)

(** The condition of lines 61-63 (and of lines 232-234). *)
Definition isActive (interface : QNetworkInterface) : bool :=
  testFlag (flags interface) IsUp &&
  testFlag (flags interface) IsRunning &&
  negb (testFlag (flags interface) IsLoopBack).

(** The condition of lines 66-68. *)
Definition isUsable (address : QHostAddress) : bool :=
  match protocol address with
  | IPv4Protocol => true
  | _ => false
  end &&
  negb (eqb address LocalHost) &&
  negb (isInSubnet address subnet_169_254).

(** The loop of lines 65-71. *)
Definition appendUsable (addresses : list QHostAddress) (all : list QHostAddress)
  : list QHostAddress :=
  fold_left
    (fun addresses address =>
       if isUsable address then addresses ++ [address] else addresses)
    all addresses.

Definition getAvailableIPv4Addresses (host : Host) : list QHostAddress :=
  fold_left
    (fun addresses interface =>
       if isActive interface then appendUsable addresses (allAddresses host)
       else addresses)
    host [].

(** ** getActiveNetworkInterfaces (lines 227-240) *)

Definition getActiveNetworkInterfaces (host : Host) : list QNetworkInterface :=
  fold_left
    (fun interfaces interface =>
       if isActive interface then interfaces ++ [interface] else interfaces)
    host [].

(** ** getSuggestedIPv4Address (lines 78-118) *)

(** The loop of lines 83-87: the first element equal to [selected]. *)
Fixpoint findSelected (selected : QHostAddress) (l : list QHostAddress)
  : option QHostAddress :=
  match l with
  | [] => None
  | address :: rest =>
      if eqb address selected then Some address else findSelected selected rest
  end.

(** The loop of lines 94-98 (and 106-110): the first element in 192.168/16. *)
Fixpoint findPreferred (l : list QHostAddress) : option QHostAddress :=
  match l with
  | [] => None
  | address :: rest =>
      if isInSubnet address subnet_192_168 then Some address else findPreferred rest
  end.

Definition isEmpty (l : list QHostAddress) : bool :=
  match l with
  | [] => true
  | _ :: _ => false
  end.

(** [QVector::first()], called on non-empty vectors only. *)
Definition first (l : list QHostAddress) : QHostAddress := hd NullAddress l.

Definition getSuggestedIPv4Address (host : Host) (m : Monitor) : QHostAddress :=
  match
    (if negb (isNull (m_selectedIPAddress m))
     then findSelected (m_selectedIPAddress m) (getAvailableIPv4Addresses host)
     else None)
  with
  | Some address => address
  | None =>
      let addresses := getAvailableIPv4Addresses host in
      match findPreferred addresses with
      | Some address => address
      | None =>
          if negb (isEmpty addresses) then first addresses
          else
            (* lines 105-115 repeat lines 93-103 *)
            match findPreferred addresses with
            | Some address => address
            | None =>
                if negb (isEmpty addresses) then first addresses
                else NullAddress
            end
      end
  end.

(** ** updateNetworkState (lines 169-225) *)

(** [QVector::contains]. *)
Definition contains (l : list QHostAddress) (address : QHostAddress) : bool :=
  existsb (fun x => eqb x address) l.

(** Lines 174-182. *)
Definition addressesChanged (currentAddresses lastAddresses : list QHostAddress) : bool :=
  if negb (Nat.eqb (List.length currentAddresses) (List.length lastAddresses)) then true
  else existsb (fun address => negb (contains lastAddresses address)) currentAddresses.

(** Lines 184-199: interfaces are compared by [name()]. *)
Definition interfacesChanged (currentInterfaces lastInterfaces : list QNetworkInterface)
  : bool :=
  if negb (Nat.eqb (List.length currentInterfaces) (List.length lastInterfaces)) then true
  else
    existsb
      (fun interface =>
         negb (existsb (fun lastInterface =>
                          String.eqb (name interface) (name lastInterface))
                       lastInterfaces))
      currentInterfaces.

(** Lines 202-212. *)
Definition selectedIPChanged (selected : QHostAddress) (currentAddresses : list QHostAddress)
  : bool :=
  if negb (isNull selected)
  then negb (existsb (fun address => eqb address selected) currentAddresses)
  else false.

Definition updateNetworkState (host : Host) (m : Monitor) : bool * Monitor :=
  let currentAddresses := getAvailableIPv4Addresses host in
  let currentInterfaces := getActiveNetworkInterfaces host in
  if addressesChanged currentAddresses (m_lastAddresses m)
     || interfacesChanged currentInterfaces (m_lastNetworkInterfaces m)
     || selectedIPChanged (m_selectedIPAddress m) currentAddresses
  then
    (true,
     mkMonitor currentAddresses
               (map humanReadableName currentInterfaces)
               currentInterfaces
               (m_selectedIPAddress m)
               (m_isMonitoring m))
  else (false, m).

(** ** hasNetworkChanged (lines 120-149), hasMultipleActiveNetworks (lines 151-155) *)

Definition hasNetworkChanged (host : Host) (m : Monitor) : bool :=
  let currentAddresses := getAvailableIPv4Addresses host in
  if negb (Nat.eqb (List.length currentAddresses) (List.length (m_lastAddresses m)))
  then true
  else if existsb (fun address => negb (contains (m_lastAddresses m) address))
                  currentAddresses
  then true
  else if negb (isNull (m_selectedIPAddress m))
  then
    if negb (existsb (fun address => eqb address (m_selectedIPAddress m))
                     currentAddresses)
    then true
    else false
  else false.

Definition hasMultipleActiveNetworks (host : Host) : bool :=
  Nat.ltb 1 (List.length (getActiveNetworkInterfaces host)).

(** [setSelectedIPAddress] (lines 242-245). *)
Definition setSelectedIPAddress (address : QHostAddress) (m : Monitor) : Monitor :=
  mkMonitor (m_lastAddresses m) (m_lastActiveInterfaces m)
            (m_lastNetworkInterfaces m) address (m_isMonitoring m).

(** The monitor as the constructor leaves it (lines 15-22). *)
Definition NetworkMonitor : Monitor :=
  mkMonitor [] [] [] NullAddress false.

(** ** The check timer, the signals, and the remaining members *)

(** [QTimer]: whether it is running and its interval in milliseconds.
    [start(msec)] starts or restarts it with that interval (Qt documents
    non-negative intervals), [stop()] leaves the interval alone. *)
Record QTimer : Type := mkTimer {
  running : bool;
  interval : Z
}.

Definition timer_start (msec : Z) (t : QTimer) : QTimer := mkTimer true msec.
Definition timer_stop (t : QTimer) : QTimer := mkTimer false (interval t).

(** The object: the fields of [Monitor] and the timer [m_checkTimer] points
    to (NetworkMonitor.h, line 120). *)
Record Object : Type := mkObject {
  fields : Monitor;
  m_checkTimer : QTimer
}.

(** The constructor (lines 15-22): empty snapshot, a new timer, not
    monitoring.  Line 21 connects the timer's [timeout()] to
    [checkNetworkState()]. *)
Definition construct : Object :=
  mkObject NetworkMonitor (mkTimer false 0).

(** The signals (NetworkMonitor.h, lines 81-97).  What the slots connected
    to them do is not part of the monitor. *)
Inductive Signal : Type :=
| networkConfigurationChanged
| ipAddressesChanged (addresses : list QHostAddress)
| multipleNetworksDetected (interfaces : list QNetworkInterface).

Definition setMonitoring (b : bool) (m : Monitor) : Monitor :=
  mkMonitor (m_lastAddresses m) (m_lastActiveInterfaces m)
            (m_lastNetworkInterfaces m) (m_selectedIPAddress m) b.

(** [startMonitoring] (lines 24-36): the result of the initial update is
    dropped, no signal is emitted. *)
Definition startMonitoring (intervalMs : Z) (host : Host) (o : Object) : Object :=
  if m_isMonitoring (fields o) then o
  else
    let updated := snd (updateNetworkState host (fields o)) in
    mkObject (setMonitoring true updated) (timer_start intervalMs (m_checkTimer o)).

(** [stopMonitoring] (lines 38-46). *)
Definition stopMonitoring (o : Object) : Object :=
  if negb (m_isMonitoring (fields o)) then o
  else mkObject (setMonitoring false (fields o)) (timer_stop (m_checkTimer o)).

(** [refreshNetwork] (lines 48-54). *)
Definition refreshNetwork (host : Host) (o : Object) : Object * list Signal :=
  let (changed, updated) := updateNetworkState host (fields o) in
  (mkObject updated (m_checkTimer o),
   if changed then [networkConfigurationChanged] else []).

(** [checkNetworkState] (lines 157-167). *)
Definition checkNetworkState (host : Host) (o : Object) : Object * list Signal :=
  let (changed, updated) := updateNetworkState host (fields o) in
  (mkObject updated (m_checkTimer o),
   if changed then
     networkConfigurationChanged
       :: ipAddressesChanged (m_lastAddresses updated)
       :: (if hasMultipleActiveNetworks host
           then [multipleNetworksDetected (getActiveNetworkInterfaces host)]
           else [])
   else []).

(** [selectedIPAddress] (lines 247-250). *)
Definition selectedIPAddress (m : Monitor) : QHostAddress := m_selectedIPAddress m.

(** The timer's [timeout()]: it fires only while the timer runs, and runs
    the slot connected on line 21. *)
Definition timeout (host : Host) (o : Object) : Object * list Signal :=
  if running (m_checkTimer o) then checkNetworkState host o else (o, []).

(** What can happen to a monitor: a call of a public member, or a tick of
    its timer. *)
Inductive Call : Type :=
| CallStartMonitoring (intervalMs : Z)
| CallStopMonitoring
| CallRefreshNetwork
| CallSetSelectedIPAddress (address : QHostAddress)
| TimerTimeout.

(** One call, on the host as it is at that moment. *)
Definition step (host : Host) (c : Call) (o : Object) : Object * list Signal :=
  match c with
  | CallStartMonitoring intervalMs => (startMonitoring intervalMs host o, [])
  | CallStopMonitoring => (stopMonitoring o, [])
  | CallRefreshNetwork => refreshNetwork host o
  | CallSetSelectedIPAddress address =>
      (mkObject (setSelectedIPAddress address (fields o)) (m_checkTimer o), [])
  | TimerTimeout => timeout host o
  end.

(** A history of calls, each with the host of its moment; the signals of all
    of them in order. *)
Fixpoint run (calls : list (Host * Call)) (o : Object) : Object * list Signal :=
  match calls with
  | [] => (o, [])
  | (host, c) :: rest =>
      let (o1, s1) := step host c o in
      let (o2, s2) := run rest o1 in
      (o2, s1 ++ s2)
  end.

(** Intervals a caller may pass to [startMonitoring]. *)
Definition well_formed (c : Call) : Prop :=
  match c with
  | CallStartMonitoring intervalMs => 0 <= intervalMs
  | _ => True
  end.

(** What a signal may carry, see [signals_sound]. *)
Definition sound (s : Signal) : Prop :=
  match s with
  | networkConfigurationChanged => True
  | ipAddressesChanged addresses =>
      Forall (fun address => isUsable address = true) addresses
  | multipleNetworksDetected interfaces =>
      (2 <= List.length interfaces)%nat
      /\ Forall (fun interface => isActive interface = true) interfaces
  end.

(** What every monitor satisfies, see [reachable_invariant]. *)
Definition consistent (o : Object) : Prop :=
  m_lastActiveInterfaces (fields o)
  = map humanReadableName (m_lastNetworkInterfaces (fields o))
  /\ Forall (fun interface => isActive interface = true)
            (m_lastNetworkInterfaces (fields o))
  /\ Forall (fun address => isUsable address = true) (m_lastAddresses (fields o))
  /\ m_isMonitoring (fields o) = running (m_checkTimer o).

(** ** Sample hosts *)

(** A wired interface, up and running. *)
Definition eth0 : QNetworkInterface :=
  mkInterface "eth0" "eth0"
              (Z.lor IsUp (Z.lor IsRunning (Z.lor CanBroadcast CanMulticast)))
              [ipv4 192 168 1 10].

(** A bridge that is up but not running (it has no carrier). *)
Definition docker0 : QNetworkInterface :=
  mkInterface "docker0" "docker0"
              (Z.lor IsUp (Z.lor CanBroadcast CanMulticast))
              [ipv4 172 17 0 1].

Definition host_bridge : Host := [eth0; docker0].
Definition host_wired : Host := [eth0].

(** A wireless interface, up and running. *)
Definition wlan0 : QNetworkInterface :=
  mkInterface "wlan0" "wlan0"
              (Z.lor IsUp (Z.lor IsRunning (Z.lor CanBroadcast CanMulticast)))
              [ipv4 10 0 0 9].

(** The loopback interface. *)
Definition lo : QNetworkInterface :=
  mkInterface "lo" "lo" (Z.lor IsUp (Z.lor IsRunning IsLoopBack))
              [ipv4 127 0 0 1].

Definition host_two : Host := [lo; eth0; wlan0].

(** A monitor whose user selected 10.0.0.9. *)
Definition monitor_selected : Monitor :=
  setSelectedIPAddress (ipv4 10 0 0 9) NetworkMonitor.

End NetworkMonitor.

(* ================================================================== *)
(** * Properties of SecureListenSocket::accept *)
(* ================================================================== *)

Module AcceptProofs.

Import SecureListenSocket.

Ltac run_accept :=
  unfold accept, accept_frame, accept_try, accept_catch, cleanup, try_catch,
    bind, ret, throw, call, set_socket, get_socket, setListeningJob, delete,
    loadCertificates, loaded, resolved, accepted;
  cbn -[certificateFilename].

(** The paths through [accept], one per combination of what its
    collaborators do. *)
Lemma accept_paths (env : Env) (reg : Registration) :
  accept env reg =
  match acceptSocket env with
  | Thrown XArchNetwork => (Normal None, reg, [EvAcceptSocket])
  | Thrown StdException => (Thrown StdException, reg, [EvAcceptSocket])
  | Normal fd =>
      let sock := accepted env fd in
      match newSecureSocket env with
      | Thrown XArchNetwork =>
          (Normal None, reg, [EvAcceptSocket; EvNewSecureSocket])
      | Thrown StdException =>
          (Thrown StdException, reg, [EvAcceptSocket; EvNewSecureSocket])
      | Normal _ =>
          match initSsl env with
          | Thrown XArchNetwork =>
              (Normal None, Armed,
               [EvAcceptSocket; EvNewSecureSocket; EvInitSsl;
                EvDelete sock; EvSetListeningJob])
          | Thrown StdException =>
              (Thrown StdException, Armed,
               [EvAcceptSocket; EvNewSecureSocket; EvInitSsl;
                EvDelete sock; EvSetListeningJob])
          | Normal _ =>
              let pre := [EvAcceptSocket; EvNewSecureSocket; EvInitSsl;
                          EvSetListeningJob; EvGetProfileDirectory;
                          EvLoadCertificates (resolved env)] in
              if loaded env then
                match secureAccept env with
                | Normal _ => (Normal (Some sock), Armed, pre ++ [EvSecureAccept])
                | Thrown XArchNetwork =>
                    (Normal None, Armed,
                     pre ++ [EvSecureAccept; EvDelete sock; EvSetListeningJob])
                | Thrown StdException =>
                    (Thrown StdException, Armed,
                     pre ++ [EvSecureAccept; EvDelete sock; EvSetListeningJob])
                end
              else (Normal None, Armed, pre ++ [EvDelete sock])
          end
      end
  end.
Proof.
  run_accept.
  destruct (acceptSocket env) as [fd|[]]; cbn -[certificateFilename];
    try reflexivity.
  destruct (newSecureSocket env) as [u|[]]; cbn -[certificateFilename];
    try reflexivity.
  destruct (initSsl env) as [u'|[]]; cbn -[certificateFilename];
    try reflexivity.
  destruct (bundleAt env _); cbn -[certificateFilename]; try reflexivity;
    destruct (secureAccept env) as [v|[]]; reflexivity.
Qed.

(** The same, for a call that got as far as a connection with a TLS
    context. *)
Lemma accept_connected (env : Env) (reg : Registration) (fd : ArchSocket) :
  connected env fd ->
  accept env reg =
  let sock := accepted env fd in
  let pre := [EvAcceptSocket; EvNewSecureSocket; EvInitSsl;
              EvSetListeningJob; EvGetProfileDirectory;
              EvLoadCertificates (resolved env)] in
  if loaded env then
    match secureAccept env with
    | Normal _ => (Normal (Some sock), Armed, pre ++ [EvSecureAccept])
    | Thrown XArchNetwork =>
        (Normal None, Armed,
         pre ++ [EvSecureAccept; EvDelete sock; EvSetListeningJob])
    | Thrown StdException =>
        (Thrown StdException, Armed,
         pre ++ [EvSecureAccept; EvDelete sock; EvSetListeningJob])
    end
  else (Normal None, Armed, pre ++ [EvDelete sock]).
Proof.
  intros (Ha & Hn & Hi). now rewrite accept_paths, Ha, Hn, Hi.
Qed.

Lemma c_str_nul_free (s : string) : nul_free s = true -> c_str s = s.
Proof.
  induction s as [|c r IH]; cbn; [reflexivity|].
  destruct (Ascii.eqb c zero); cbn; [discriminate|].
  intros H. now rewrite IH.
Qed.

Lemma guarded_sound (evs : list event) :
  forall armed, guarded armed evs = true ->
  forall pre e post,
    evs = pre ++ e :: post ->
    is_upgrade_work e = true ->
    armed = true \/ In EvSetListeningJob pre.
Proof.
  induction evs as [|x rest IH]; intros armed G pre e post E W.
  - destruct pre; discriminate.
  - cbn in G. destruct pre as [|y pre']; cbn in E; injection E as -> E.
    + rewrite W in G. apply andb_prop in G. now left.
    + destruct (is_upgrade_work y) eqn:Wy.
      * apply andb_prop in G as [-> G].  now left.
      * destruct (IH _ G _ _ _ E W) as [H|H]; [|right; now right].
        apply orb_prop in H as [H|H]; [now left|].
        right; left. destruct y; cbn in H; congruence.
Qed.

Lemma connected_override : connected env_override 7%nat.
Proof. repeat split. Qed.

(** ** Certificate path resolution *)

(** C4.  With no override configured the resolved path is exactly
    profile_directory/tls/<application-id>.pem (for a profile directory and
    an application identifier that are C strings); for /home/u/.config/app
    and deskflow this is /home/u/.config/app/tls/deskflow.pem. *)
Theorem default_certificate_path (profileDirectory kAppId : string) :
  nul_free profileDirectory = true ->
  nul_free kAppId = true ->
  certificateFilename "" profileDirectory kAppId
  = (profileDirectory ++ "/" ++ "tls" ++ "/" ++ kAppId ++ "." ++ "pem")%string.
Proof.
  intros Hp Ha. unfold certificateFilename. cbn.
  now rewrite (c_str_nul_free _ Hp), (c_str_nul_free _ Ha).
Qed.

Lemma default_certificate_path_deskflow :
  certificateFilename "" "/home/u/.config/app" "deskflow"
  = "/home/u/.config/app/tls/deskflow.pem".
Proof.
  exact (default_certificate_path "/home/u/.config/app" "deskflow" eq_refl eq_refl).
Defined.

(** A configured override is the resolved path, whatever the profile
    directory and the file system hold. *)
Lemma override_is_resolved (tlsCertFile profileDirectory kAppId : string) :
  tlsCertFile <> "" ->
  certificateFilename tlsCertFile profileDirectory kAppId = tlsCertFile.
Proof.
  intros H. unfold certificateFilename.
  destruct tlsCertFile; [congruence | reflexivity].
Qed.

(** Every call loads from at most one path, the resolved one. *)
Lemma loads_resolved_only (env : Env) (reg : Registration) :
  loads (events (accept env reg)) = []
  \/ loads (events (accept env reg)) = [resolved env].
Proof.
  rewrite accept_paths.
  destruct (acceptSocket env) as [fd|[]]; [|now left..].
  destruct (newSecureSocket env) as [u|[]]; [|now left..].
  destruct (initSsl env) as [u'|[]]; [|now left..].
  right. destruct (loaded env); [destruct (secureAccept env) as [v|[]]|];
    reflexivity.
Qed.

(** C5.  A non-empty override is used verbatim: it is the resolved path
    whatever the profile directory is, and it is the only path a call ever
    loads from.  When no bundle exists at the override, the call of a
    connected client fails its certificate load: the one load attempted is
    of the override, the connection is deleted, no handshake is begun and
    the empty result is returned; the default path is not tried. *)
Theorem override_used_verbatim (env : Env) (reg : Registration) (fd : ArchSocket) :
  m_tlsCertFile env <> "" ->
  (forall profileDirectory kAppId,
     certificateFilename (m_tlsCertFile env) profileDirectory kAppId
     = m_tlsCertFile env)
  /\ (forall path, In path (loads (events (accept env reg))) ->
                   path = m_tlsCertFile env)
  /\ (connected env fd ->
      bundleAt env (m_tlsCertFile env) = Missing ->
      result (accept env reg) = Normal None
      /\ loads (events (accept env reg)) = [m_tlsCertFile env]
      /\ In (EvDelete (accepted env fd)) (events (accept env reg))
      /\ ~ In EvSecureAccept (events (accept env reg))).
Proof.
  intros Hne.
  assert (R : resolved env = m_tlsCertFile env)
    by (apply override_is_resolved; exact Hne).
  split; [intros; now apply override_is_resolved|].
  split.
  - intros path Hin.
    destruct (loads_resolved_only env reg) as [E|E]; rewrite E in Hin.
    + destruct Hin.
    + destruct Hin as [<-|[]]. exact R.
  - intros Hc Hb. rewrite (accept_connected env reg fd Hc).
    unfold loaded. rewrite R, Hb. cbn.
    repeat split; auto 10.
    intros H. repeat (destruct H as [H|H]; [discriminate|]). destruct H.
Qed.

Lemma override_used_verbatim_sample :
  m_tlsCertFile env_override <> ""
  /\ bundleAt env_override "/home/u/.config/app/tls/deskflow.pem" = Valid
  /\ result (accept env_override Unarmed) = Normal None
  /\ loads (events (accept env_override Unarmed)) = ["X"].
Proof.
  assert (H : m_tlsCertFile env_override <> "") by discriminate.
  split; [exact H|]. split; [reflexivity|].
  destruct (override_used_verbatim env_override Unarmed 7%nat H)
    as [_ [_ K]].
  destruct (K connected_override eq_refl) as [K1 [K2 _]].
  split; [exact K1 | exact K2].
Defined.

(** ** Re-arming *)

(** C3.  When the raw accept succeeds, every piece of certificate
    resolution, certificate loading or handshake initiation the call
    performs comes after a re-arm of the listener; and the call does re-arm
    once the connection object is built. *)
Theorem rearm_precedes_upgrade (env : Env) (reg : Registration) (fd : ArchSocket) :
  acceptSocket env = Normal fd ->
  (forall pre e post,
     events (accept env reg) = pre ++ e :: post ->
     is_upgrade_work e = true ->
     In EvSetListeningJob pre)
  /\ (newSecureSocket env = Normal tt ->
      In EvSetListeningJob (events (accept env reg))).
Proof.
  intros Ha. split.
  - assert (G : guarded false (events (accept env reg)) = true).
    { rewrite accept_paths, Ha.
      destruct (newSecureSocket env) as [u|[]]; [|reflexivity..].
      destruct (initSsl env) as [u'|[]]; [|reflexivity..].
      destruct (loaded env); [destruct (secureAccept env) as [v|[]]|];
        reflexivity. }
    intros pre e post E W.
    destruct (guarded_sound _ _ G _ _ _ E W) as [H|H];
      [discriminate | exact H].
  - intros Hn. rewrite accept_paths, Ha, Hn.
    destruct (initSsl env) as [u'|[]]; cbn; auto 10.
    destruct (loaded env); [destruct (secureAccept env) as [v|[]]|];
      cbn; auto 10.
Qed.

Lemma rearm_precedes_upgrade_sample :
  acceptSocket env_default = Normal 7%nat
  /\ (forall pre e post,
        events (accept env_default Unarmed) = pre ++ e :: post ->
        is_upgrade_work e = true ->
        In EvSetListeningJob pre)
  /\ In EvSetListeningJob (events (accept env_default Unarmed)).
Proof.
  split; [reflexivity|].
  destruct (rearm_precedes_upgrade env_default Unarmed 7%nat eq_refl)
    as [K1 K2].
  split; [exact K1 | exact (K2 eq_refl)].
Defined.

(** C6.  When the certificate load of a connected client fails, the call
    deletes the connection, begins no handshake, returns the empty result
    without raising and leaves the listener armed, having re-armed it
    once. *)
Theorem certificate_failure_absorbed (env : Env) (reg : Registration) (fd : ArchSocket) :
  connected env fd ->
  bundleAt env (resolved env) <> Valid ->
  result (accept env reg) = Normal None
  /\ registered (accept env reg) = Armed
  /\ rearms (events (accept env reg)) = 1%nat
  /\ In (EvDelete (accepted env fd)) (events (accept env reg))
  /\ ~ In EvSecureAccept (events (accept env reg)).
Proof.
  intros Hc Hb. rewrite (accept_connected env reg fd Hc).
  assert (L : loaded env = false)
    by (unfold loaded; destruct (bundleAt env (resolved env)); congruence).
  rewrite L. cbn. repeat split; auto 10.
  intros H. repeat (destruct H as [H|H]; [discriminate|]). destruct H.
Qed.

Lemma certificate_failure_absorbed_sample :
  bundleAt env_override (resolved env_override) <> Valid
  /\ result (accept env_override Unarmed) = Normal None
  /\ registered (accept env_override Unarmed) = Armed.
Proof.
  assert (H : bundleAt env_override (resolved env_override) <> Valid)
    by discriminate.
  split; [exact H|].
  destruct (certificate_failure_absorbed env_override Unarmed 7%nat
              connected_override H) as [K1 [K2 _]].
  split; [exact K1 | exact K2].
Defined.

(** Once the connection object exists, every path through the call leaves
    the listener armed, by one re-arm or by two. *)
Lemma built_connection_rearms (env : Env) (reg : Registration) (fd : ArchSocket) :
  acceptSocket env = Normal fd ->
  newSecureSocket env = Normal tt ->
  registered (accept env reg) = Armed
  /\ (rearms (events (accept env reg)) = 1%nat
      \/ rearms (events (accept env reg)) = 2%nat).
Proof.
  intros Ha Hn. rewrite accept_paths, Ha, Hn.
  destruct (initSsl env) as [u|[]]; cbn; auto.
  destruct (loaded env); [destruct (secureAccept env) as [v|[]]|]; cbn; auto.
Qed.

Lemma built_connection_rearms_sample :
  registered (accept env_default Unarmed) = Armed
  /\ (rearms (events (accept env_default Unarmed)) = 1%nat
      \/ rearms (events (accept env_default Unarmed)) = 2%nat).
Proof.
  exact (built_connection_rearms env_default Unarmed 7%nat eq_refl eq_refl).
Defined.

(** A call in which line 53 raises leaves the registration as it found it. *)
Lemma failed_line_53_keeps_registration (env : Env) (reg : Registration)
      (e : exception) :
  acceptSocket env = Thrown e
  \/ (exists fd, acceptSocket env = Normal fd) /\ newSecureSocket env = Thrown e ->
  registered (accept env reg) = reg
  /\ rearms (events (accept env reg)) = 0%nat.
Proof.
  rewrite accept_paths. intros [Ha|[[fd Ha] Hn]]; rewrite Ha; [|rewrite Hn];
    destruct e; split; reflexivity.
Qed.

(** ** Failures of the raw accept *)

(** C1 (the code departs from the claim).  When the raw accept raises a
    network-layer error the call does not re-arm: an unarmed listener is
    still unarmed when the call returns. *)
Theorem network_failure_leaves_unarmed (env : Env) :
  acceptSocket env = Thrown XArchNetwork ->
  registered (accept env Unarmed) = Unarmed
  /\ rearms (events (accept env Unarmed)) = 0%nat.
Proof.
  intros Ha. rewrite accept_paths, Ha. split; reflexivity.
Qed.

Lemma network_failure_leaves_unarmed_sample :
  acceptSocket env_network_failure = Thrown XArchNetwork
  /\ registered (accept env_network_failure Unarmed) = Unarmed
  /\ rearms (events (accept env_network_failure Unarmed)) = 0%nat.
Proof.
  split; [reflexivity|].
  exact (network_failure_leaves_unarmed env_network_failure eq_refl).
Defined.

(** C2 (the code departs from the claim).  When the raw accept raises a
    network-layer error the call returns the empty result and raises
    nothing, but its only action is the failed accept: it re-arms zero
    times, not once. *)
Theorem network_failure_outcome (env : Env) (reg : Registration) :
  acceptSocket env = Thrown XArchNetwork ->
  accept env reg = (Normal None, reg, [EvAcceptSocket]).
Proof.
  intros Ha. now rewrite accept_paths, Ha.
Qed.

Lemma network_failure_outcome_sample :
  acceptSocket env_network_failure = Thrown XArchNetwork
  /\ accept env_network_failure Unarmed = (Normal None, Unarmed, [EvAcceptSocket]).
Proof.
  split; [reflexivity|].
  exact (network_failure_outcome env_network_failure Unarmed eq_refl).
Defined.

(** ** Propagation *)

(** C7 (the code departs from the claim).  When the raw accept raises an
    exception outside the network class, the exception propagates and the
    call has attempted no re-arm. *)
Theorem unexpected_accept_failure_outcome (env : Env) (reg : Registration) :
  acceptSocket env = Thrown StdException ->
  accept env reg = (Thrown StdException, reg, [EvAcceptSocket]).
Proof.
  intros Ha. now rewrite accept_paths, Ha.
Qed.

Lemma unexpected_accept_failure_outcome_sample :
  acceptSocket env_unexpected_failure = Thrown StdException
  /\ accept env_unexpected_failure Unarmed
     = (Thrown StdException, Unarmed, [EvAcceptSocket]).
Proof.
  split; [reflexivity|].
  exact (unexpected_accept_failure_outcome env_unexpected_failure Unarmed eq_refl).
Defined.

(** Only an exception outside the network class leaves [accept], and only
    when a collaborator raised one. *)
Lemma only_unexpected_propagates (env : Env) (reg : Registration) (e : exception) :
  result (accept env reg) = Thrown e ->
  e = StdException
  /\ (acceptSocket env = Thrown StdException
      \/ newSecureSocket env = Thrown StdException
      \/ initSsl env = Thrown StdException
      \/ secureAccept env = Thrown StdException).
Proof.
  rewrite accept_paths.
  destruct (acceptSocket env) as [fd|[]]; cbn; try discriminate;
    [|intros [= <-]; auto].
  destruct (newSecureSocket env) as [u|[]]; cbn; try discriminate;
    [|intros [= <-]; auto].
  destruct (initSsl env) as [u'|[]]; cbn; try discriminate;
    [|intros [= <-]; auto].
  destruct (loaded env); [|discriminate].
  destruct (secureAccept env) as [v|[]]; cbn; try discriminate.
  intros [= <-]; auto 6.
Qed.

Lemma only_unexpected_propagates_sample :
  result (accept env_handshake_failure Unarmed) = Thrown StdException
  /\ (acceptSocket env_handshake_failure = Thrown StdException
      \/ newSecureSocket env_handshake_failure = Thrown StdException
      \/ initSsl env_handshake_failure = Thrown StdException
      \/ secureAccept env_handshake_failure = Thrown StdException).
Proof.
  split; [reflexivity|].
  exact (proj2 (only_unexpected_propagates env_handshake_failure Unarmed
                  StdException eq_refl)).
Defined.



(** When an exception propagates after the connection object was built, the
    call has deleted the connection and then re-armed the listener. *)
Lemma propagation_after_cleanup (env : Env) (reg : Registration)
      (fd : ArchSocket) (e : exception) :
  acceptSocket env = Normal fd ->
  newSecureSocket env = Normal tt ->
  result (accept env reg) = Thrown e ->
  registered (accept env reg) = Armed
  /\ exists pre,
       events (accept env reg)
       = pre ++ [EvDelete (accepted env fd); EvSetListeningJob].
Proof.
  intros Ha Hn. rewrite accept_paths, Ha, Hn.
  destruct (initSsl env) as [u|[]]; cbn; try discriminate.
  - destruct (loaded env); [|discriminate].
    destruct (secureAccept env) as [v|[]]; cbn; try discriminate.
    intros _. split; [reflexivity|].
    now exists [EvAcceptSocket; EvNewSecureSocket; EvInitSsl; EvSetListeningJob;
                EvGetProfileDirectory; EvLoadCertificates (resolved env);
                EvSecureAccept].
  - intros _. split; [reflexivity|].
    now exists [EvAcceptSocket; EvNewSecureSocket; EvInitSsl].
Qed.

Lemma propagation_after_cleanup_sample :
  result (accept env_handshake_failure Unarmed) = Thrown StdException
  /\ registered (accept env_handshake_failure Unarmed) = Armed.
Proof.
  split; [reflexivity|].
  exact (proj1 (propagation_after_cleanup env_handshake_failure Unarmed 7%nat
                  StdException eq_refl eq_refl eq_refl)).
Defined.

(** ** What a call returns, deletes and registers *)

(** A connection is returned only by the one path on which everything
    succeeded: its bundle loaded, its handshake was begun, it was not
    deleted, and the listener was re-armed once, before the upgrade. *)
Lemma returned_connection_live (env : Env) (reg : Registration) (s : SecureSocket) :
  result (accept env reg) = Normal (Some s) ->
  exists fd,
    connected env fd
    /\ s = accepted env fd
    /\ bundleAt env (resolved env) = Valid
    /\ secureAccept env = Normal tt
    /\ registered (accept env reg) = Armed
    /\ events (accept env reg)
       = [EvAcceptSocket; EvNewSecureSocket; EvInitSsl; EvSetListeningJob;
          EvGetProfileDirectory; EvLoadCertificates (resolved env);
          EvSecureAccept].
Proof.
  rewrite accept_paths. unfold loaded, connected.
  destruct (acceptSocket env) as [fd|[]]; cbn; try discriminate.
  destruct (newSecureSocket env) as [[]|[]]; cbn; try discriminate.
  destruct (initSsl env) as [[]|[]]; cbn; try discriminate.
  destruct (bundleAt env (resolved env)) eqn:B; cbn; try discriminate.
  destruct (secureAccept env) as [[]|[]]; cbn; try discriminate.
  intros [= <-]. exists fd. auto 10.
Qed.

Lemma returned_connection_live_sample :
  result (accept env_default Unarmed) = Normal (Some (accepted env_default 7%nat))
  /\ exists fd,
       connected env_default fd
       /\ accepted env_default 7%nat = accepted env_default fd
       /\ bundleAt env_default (resolved env_default) = Valid
       /\ secureAccept env_default = Normal tt
       /\ registered (accept env_default Unarmed) = Armed
       /\ events (accept env_default Unarmed)
          = [EvAcceptSocket; EvNewSecureSocket; EvInitSsl; EvSetListeningJob;
             EvGetProfileDirectory; EvLoadCertificates (resolved env_default);
             EvSecureAccept].
Proof.
  split; [reflexivity|].
  exact (returned_connection_live env_default Unarmed
           (accepted env_default 7%nat) eq_refl).
Defined.

(** A connection object that was built is either returned, and then not
    deleted, or deleted exactly once, and then not returned. *)
Lemma built_socket_returned_or_deleted (env : Env) (reg : Registration)
      (fd : ArchSocket) :
  acceptSocket env = Normal fd ->
  newSecureSocket env = Normal tt ->
  (result (accept env reg) = Normal (Some (accepted env fd))
   /\ deletes (events (accept env reg)) = [])
  \/ ((forall s, result (accept env reg) <> Normal (Some s))
      /\ deletes (events (accept env reg)) = [EvDelete (accepted env fd)]).
Proof.
  intros Ha Hn. rewrite accept_paths, Ha, Hn.
  destruct (initSsl env) as [u|[]]; cbn;
    try (right; split; [discriminate | reflexivity]).
  destruct (loaded env); [destruct (secureAccept env) as [v|[]]|]; cbn;
    try (right; split; [discriminate | reflexivity]).
  left. split; reflexivity.
Qed.

Lemma built_socket_returned_or_deleted_sample :
  (result (accept env_override Unarmed) = Normal (Some (accepted env_override 7%nat))
   /\ deletes (events (accept env_override Unarmed)) = [])
  \/ ((forall s, result (accept env_override Unarmed) <> Normal (Some s))
      /\ deletes (events (accept env_override Unarmed))
         = [EvDelete (accepted env_override 7%nat)]).
Proof.
  exact (built_socket_returned_or_deleted env_override Unarmed 7%nat
           eq_refl eq_refl).
Defined.

(** How often a call re-arms: never more than twice; not at all exactly
    when line 53 raised; twice exactly when the handshake initiation of a
    connected client with a loaded bundle raised. *)
Lemma rearm_count (env : Env) (reg : Registration) :
  (rearms (events (accept env reg)) <= 2)%nat
  /\ (rearms (events (accept env reg)) = 0%nat
      <-> (exists e, acceptSocket env = Thrown e)
          \/ (exists e, newSecureSocket env = Thrown e))
  /\ (rearms (events (accept env reg)) = 2%nat
      <-> exists fd e,
            connected env fd /\ loaded env = true
            /\ secureAccept env = Thrown e).
Proof.
  rewrite accept_paths. unfold connected.
  destruct (acceptSocket env) as [fd|ea] eqn:Ea;
    [destruct (newSecureSocket env) as [[]|en] eqn:En;
     [destruct (initSsl env) as [[]|ei] eqn:Ei;
      [destruct (loaded env) eqn:L;
       [destruct (secureAccept env) as [v|es] eqn:Es; [|destruct es]|]
      |destruct ei]
     |destruct en]
    |destruct ea];
    cbn; (split; [lia|]); split; split;
    try discriminate; try reflexivity;
    try (intros [[e H]|[e H]]; discriminate H);
    try (intros (fd' & e & (H1 & H2 & H3) & H4 & H5); congruence);
    eauto 10.
Qed.

(** A handshake is begun only on a connection whose bundle, at the resolved
    path, loaded: the load of that path is the event just before it. *)
Lemma handshake_needs_certificate (env : Env) (reg : Registration) :
  In EvSecureAccept (events (accept env reg)) ->
  bundleAt env (resolved env) = Valid
  /\ exists pre post,
       events (accept env reg)
       = pre ++ EvLoadCertificates (resolved env) :: EvSecureAccept :: post.
Proof.
  rewrite accept_paths. unfold loaded.
  assert (N : forall l, (forall x, In x l -> x <> EvSecureAccept) ->
                        ~ In EvSecureAccept l)
    by (intros l H K; exact (H _ K eq_refl)).
  assert (D : forall (P : Prop) l,
             (forall x, In x l -> x <> EvSecureAccept) ->
             In EvSecureAccept l -> P)
    by (intros P l H K; destruct (N l H K)).
  destruct (acceptSocket env) as [fd|[]];
    try (apply D; intros x [<-|[]]; discriminate).
  destruct (newSecureSocket env) as [u|[]];
    try (apply D; intros x [<-|[<-|[]]]; discriminate).
  destruct (initSsl env) as [u'|[]];
    try (apply D; cbn; intros x H;
         repeat (destruct H as [<-|H]; [discriminate|]); destruct H).
  destruct (bundleAt env (resolved env)) eqn:B;
    try (apply D; cbn; intros x H;
         repeat (destruct H as [<-|H]; [discriminate|]); destruct H).
  intros _. split; [reflexivity|].
  exists [EvAcceptSocket; EvNewSecureSocket; EvInitSsl; EvSetListeningJob;
          EvGetProfileDirectory].
  destruct (secureAccept env) as [v|[]]; cbn; eauto.
Qed.

Lemma handshake_needs_certificate_sample :
  In EvSecureAccept (events (accept env_handshake_failure Unarmed))
  /\ bundleAt env_handshake_failure (resolved env_handshake_failure) = Valid.
Proof.
  assert (H : In EvSecureAccept (events (accept env_handshake_failure Unarmed)))
    by (cbn; auto 10).
  split; [exact H|].
  exact (proj1 (handshake_needs_certificate env_handshake_failure Unarmed H)).
Defined.


End AcceptProofs.

(* ================================================================== *)
(** * Properties of NetworkMonitor *)
(* ================================================================== *)

Module MonitorProofs.

Import NetworkMonitor.

(** ** The loops as list functions *)

Lemma eqb_eq (x y : QHostAddress) : eqb x y = true <-> x = y.
Proof.
  destruct x, y; cbn; split; try congruence; try discriminate.
  - intros H. apply Z.eqb_eq in H. now subst.
  - intros [= ->]. apply Z.eqb_refl.
  - intros H. apply Z.eqb_eq in H. now subst.
  - intros [= ->]. apply Z.eqb_refl.
Qed.

Lemma eqb_refl (x : QHostAddress) : eqb x x = true.
Proof. now apply eqb_eq. Qed.

Lemma appendUsable_filter (all addresses : list QHostAddress) :
  appendUsable addresses all = addresses ++ filter isUsable all.
Proof.
  unfold appendUsable. revert addresses.
  induction all as [|a all IH]; intros addresses; cbn.
  - now rewrite app_nil_r.
  - rewrite IH. destruct (isUsable a); [|reflexivity].
    now rewrite <- app_assoc.
Qed.

Lemma available_fold (all : list QHostAddress) (host : Host) :
  forall addresses,
    fold_left
      (fun addresses interface =>
         if isActive interface then appendUsable addresses all else addresses)
      host addresses
    = addresses
        ++ flat_map (fun interface =>
                       if isActive interface then filter isUsable all else [])
                    host.
Proof.
  induction host as [|i host IH]; intros addresses; cbn.
  - now rewrite app_nil_r.
  - rewrite IH. destruct (isActive i).
    + rewrite appendUsable_filter. now rewrite <- app_assoc.
    + reflexivity.
Qed.

(** [getAvailableIPv4Addresses]: for every active interface, in order, the
    usable addresses of the whole host. *)
Lemma getAvailableIPv4Addresses_flat_map (host : Host) :
  getAvailableIPv4Addresses host
  = flat_map (fun interface =>
                if isActive interface then filter isUsable (allAddresses host)
                else [])
             host.
Proof.
  unfold getAvailableIPv4Addresses. now rewrite available_fold.
Qed.

Lemma active_fold (host : Host) :
  forall interfaces,
    fold_left
      (fun interfaces interface =>
         if isActive interface then interfaces ++ [interface] else interfaces)
      host interfaces
    = interfaces ++ filter isActive host.
Proof.
  induction host as [|i host IH]; intros interfaces; cbn.
  - now rewrite app_nil_r.
  - rewrite IH. destruct (isActive i); [|reflexivity].
    now rewrite <- app_assoc.
Qed.

Lemma getActiveNetworkInterfaces_filter (host : Host) :
  getActiveNetworkInterfaces host = filter isActive host.
Proof.
  unfold getActiveNetworkInterfaces. now rewrite active_fold.
Qed.

Lemma findSelected_some (selected : QHostAddress) (l : list QHostAddress)
      (address : QHostAddress) :
  findSelected selected l = Some address -> address = selected /\ In address l.
Proof.
  induction l as [|x l IH]; cbn; [discriminate|].
  destruct (eqb x selected) eqn:E.
  - intros [= <-]. apply eqb_eq in E. auto.
  - intros H. destruct (IH H). auto.
Qed.

Lemma findSelected_none (selected : QHostAddress) (l : list QHostAddress) :
  findSelected selected l = None <-> ~ In selected l.
Proof.
  induction l as [|x l IH]; cbn; [tauto|].
  destruct (eqb x selected) eqn:E.
  - apply eqb_eq in E. split; [discriminate | intros H; exfalso; auto].
  - rewrite IH. split; [|tauto].
    intros H [->|K]; [|tauto]. now rewrite eqb_refl in E.
Qed.

Lemma findPreferred_some (l : list QHostAddress) (address : QHostAddress) :
  findPreferred l = Some address ->
  exists pre post,
    l = pre ++ address :: post
    /\ isInSubnet address subnet_192_168 = true
    /\ forall x, In x pre -> isInSubnet x subnet_192_168 = false.
Proof.
  induction l as [|x l IH]; cbn [findPreferred]; [discriminate|].
  destruct (isInSubnet x subnet_192_168) eqn:E.
  - intros [= <-]. exists [], l. repeat split; [exact E|].
    intros y [].
  - intros H. destruct (IH H) as (pre & post & -> & Hin & Hpre).
    exists (x :: pre), post. repeat split; [exact Hin|].
    intros y [<-|Hy]; auto.
Qed.

Lemma findPreferred_none (l : list QHostAddress) :
  findPreferred l = None ->
  forall x, In x l -> isInSubnet x subnet_192_168 = false.
Proof.
  induction l as [|x l IH]; cbn [findPreferred In]; [tauto|].
  destruct (isInSubnet x subnet_192_168) eqn:E; [discriminate|].
  intros H y [<-|Hy]; auto.
Qed.

(** ** getSuggestedIPv4Address *)

(** C8.  The suggestion is the selected address when one is set and
    available.  Otherwise it is the null address when nothing is available,
    and else an available address: the first one in 192.168.0.0/16, or the
    first one of the list when none is in that subnet. *)
Theorem suggested_address (host : Host) (m : Monitor) :
  let available := getAvailableIPv4Addresses host in
  let selected := m_selectedIPAddress m in
  let suggested := getSuggestedIPv4Address host m in
  (isNull selected = false -> In selected available -> suggested = selected)
  /\ (isNull selected = true \/ ~ In selected available ->
      (available = [] -> suggested = NullAddress)
      /\ (available <> [] ->
          In suggested available
          /\ ((exists pre post,
                 available = pre ++ suggested :: post
                 /\ isInSubnet suggested subnet_192_168 = true
                 /\ forall x, In x pre -> isInSubnet x subnet_192_168 = false)
              \/ ((forall x, In x available ->
                             isInSubnet x subnet_192_168 = false)
                  /\ exists rest, available = suggested :: rest)))).
Proof.
  intros available selected suggested.
  subst suggested. unfold getSuggestedIPv4Address.
  fold available. fold selected. split.
  - intros Hn Hin. rewrite Hn. cbn.
    destruct (findSelected selected available) as [a|] eqn:F.
    + now apply findSelected_some in F.
    + apply findSelected_none in F. contradiction.
  - intros Hno.
    assert (F : (if negb (isNull selected)
                 then findSelected selected available else None) = None).
    { destruct Hno as [->|Hnot]; [reflexivity|].
      destruct (negb (isNull selected)); [|reflexivity].
      now apply findSelected_none. }
    rewrite F. split.
    + intros ->. reflexivity.
    + intros Hne. destruct (findPreferred available) as [a|] eqn:P.
      * destruct (findPreferred_some _ _ P) as (pre & post & E & Hin & Hpre).
        split.
        -- rewrite E. apply in_or_app. right. now left.
        -- left. now exists pre, post.
      * destruct available as [|a rest]; [congruence|].
        cbn [isEmpty negb first hd]. split.
        -- now left.
        -- right. split; [exact (findPreferred_none _ P) | now exists rest].
Qed.

(** ** getAvailableIPv4Addresses *)

Lemma isUsable_spec (address : QHostAddress) :
  isUsable address = true ->
  protocol address = IPv4Protocol
  /\ address <> LocalHost
  /\ isInSubnet address subnet_169_254 = false.
Proof.
  unfold isUsable. intros H.
  apply andb_prop in H as [H H3]. apply andb_prop in H as [H1 H2].
  repeat split.
  - destruct (protocol address); congruence.
  - intros ->. now rewrite eqb_refl in H2.
  - now apply negb_true_iff in H3.
Qed.

(** Every available address is an IPv4 address other than localhost and
    outside 169.254.0.0/16; it is an entry of an interface that is up, and
    some interface of the host is up, running and not a loopback. *)
Lemma available_addresses_usable (host : Host) (address : QHostAddress) :
  In address (getAvailableIPv4Addresses host) ->
  protocol address = IPv4Protocol
  /\ address <> LocalHost
  /\ isInSubnet address subnet_169_254 = false
  /\ (exists interface,
        In interface host
        /\ testFlag (flags interface) IsUp = true
        /\ In address (addressEntries interface))
  /\ (exists interface, In interface host /\ isActive interface = true).
Proof.
  rewrite getAvailableIPv4Addresses_flat_map. intros H.
  apply in_flat_map in H as (j & Hj & H).
  destruct (isActive j) eqn:A; [|destruct H].
  apply filter_In in H as [Hall Hu].
  destruct (isUsable_spec _ Hu) as (P1 & P2 & P3).
  repeat split; auto.
  - unfold allAddresses in Hall. apply in_flat_map in Hall as (i & Hi & Ha).
    apply filter_In in Hi as [Hi Hup]. now exists i.
  - now exists j.
Qed.

Lemma available_addresses_usable_sample :
  In (ipv4 192 168 1 10) (getAvailableIPv4Addresses host_bridge)
  /\ protocol (ipv4 192 168 1 10) = IPv4Protocol
  /\ ipv4 192 168 1 10 <> LocalHost.
Proof.
  assert (H : In (ipv4 192 168 1 10) (getAvailableIPv4Addresses host_bridge))
    by (left; reflexivity).
  split; [exact H|].
  destruct (available_addresses_usable host_bridge (ipv4 192 168 1 10) H)
    as [K1 [K2 _]].
  split; [exact K1 | exact K2].
Defined.

(** C9 (the code departs from the claim).  On a host with a running wired
    interface and a bridge that is up but not running, the bridge's address
    is in the list although no interface that holds it is up, running and
    not a loopback. *)
Theorem available_address_of_inactive_interface :
  getAvailableIPv4Addresses host_bridge = [ipv4 192 168 1 10; ipv4 172 17 0 1]
  /\ forall interface,
       In interface host_bridge ->
       In (ipv4 172 17 0 1) (addressEntries interface) ->
       isActive interface = false.
Proof.
  split; [reflexivity|].
  intros i [<-|[<-|[]]]; cbn.
  - intros [H|[]]. discriminate H.
  - reflexivity.
Qed.

(** With two active interfaces every address is listed twice. *)
Lemma available_addresses_repeat :
  getAvailableIPv4Addresses [eth0; eth0]
  = [ipv4 192 168 1 10; ipv4 192 168 1 10; ipv4 192 168 1 10; ipv4 192 168 1 10].
Proof. reflexivity. Qed.

(** ** updateNetworkState *)

Lemma contains_In (l : list QHostAddress) (address : QHostAddress) :
  contains l address = true <-> In address l.
Proof.
  unfold contains. rewrite existsb_exists. split.
  - intros (x & Hx & E). apply eqb_eq in E. now subst.
  - intros H. exists address. split; [exact H | apply eqb_refl].
Qed.

Lemma addressesChanged_same (l : list QHostAddress) : addressesChanged l l = false.
Proof.
  unfold addressesChanged. rewrite Nat.eqb_refl. cbn [negb].
  destruct (existsb _ l) eqn:E; [|reflexivity].
  apply existsb_exists in E as (x & Hx & E).
  apply contains_In in Hx. now rewrite Hx in E.
Qed.

Lemma interfacesChanged_same (l : list QNetworkInterface) :
  interfacesChanged l l = false.
Proof.
  unfold interfacesChanged. rewrite Nat.eqb_refl. cbn [negb].
  destruct (existsb _ l) eqn:E; [|reflexivity].
  apply existsb_exists in E as (x & Hx & E).
  apply negb_true_iff in E.
  assert (K : existsb (fun lastInterface => String.eqb (name x) (name lastInterface)) l
              = true).
  { apply existsb_exists. exists x. split; [exact Hx | apply String.eqb_refl]. }
  congruence.
Qed.

Lemma selectedIPChanged_spec (selected : QHostAddress) (l : list QHostAddress) :
  selectedIPChanged selected l = true <-> isNull selected = false /\ ~ In selected l.
Proof.
  unfold selectedIPChanged. destruct (isNull selected); cbn [negb].
  - split; [discriminate | intros [H _]; discriminate H].
  - rewrite negb_true_iff. split.
    + intros E. split; [reflexivity|]. intros H.
      assert (K : existsb (fun address => eqb address selected) l = true).
      { apply existsb_exists. exists selected. split; [exact H | apply eqb_refl]. }
      congruence.
    + intros [_ H]. destruct (existsb _ l) eqn:E; [|reflexivity].
      apply existsb_exists in E as (x & Hx & E). apply eqb_eq in E. now subst.
Qed.

(** A call that reports a change stores the current snapshot; a call that
    reports none leaves the monitor as it was. *)
Lemma update_stores_snapshot (host : Host) (m : Monitor) :
  (fst (updateNetworkState host m) = true ->
   snd (updateNetworkState host m)
   = mkMonitor (getAvailableIPv4Addresses host)
               (map humanReadableName (getActiveNetworkInterfaces host))
               (getActiveNetworkInterfaces host)
               (m_selectedIPAddress m) (m_isMonitoring m))
  /\ (fst (updateNetworkState host m) = false ->
      snd (updateNetworkState host m) = m).
Proof.
  unfold updateNetworkState.
  destruct (addressesChanged _ _ || interfacesChanged _ _ || selectedIPChanged _ _);
    cbn; split; congruence.
Qed.

(** While the selected address is set and not available, every call reports
    a change. *)
Lemma selection_missing_reports_change (host : Host) (m : Monitor) :
  isNull (m_selectedIPAddress m) = false ->
  ~ In (m_selectedIPAddress m) (getAvailableIPv4Addresses host) ->
  fst (updateNetworkState host m) = true.
Proof.
  intros Hn Hin. unfold updateNetworkState.
  assert (S : selectedIPChanged (m_selectedIPAddress m)
                                (getAvailableIPv4Addresses host) = true)
    by (apply selectedIPChanged_spec; auto).
  rewrite S, orb_true_r. reflexivity.
Qed.

Lemma selection_missing_reports_change_sample :
  isNull (m_selectedIPAddress monitor_selected) = false
  /\ fst (updateNetworkState host_wired monitor_selected) = true.
Proof.
  split; [reflexivity|].
  apply (selection_missing_reports_change host_wired monitor_selected).
  - reflexivity.
  - intros [H|[]]. discriminate H.
Defined.

(** [hasNetworkChanged] looks at the addresses and the selected address as
    [updateNetworkState] does: whenever it answers true, so does the
    update. *)
Lemma hasNetworkChanged_update (host : Host) (m : Monitor) :
  hasNetworkChanged host m = true ->
  fst (updateNetworkState host m) = true.
Proof.
  unfold hasNetworkChanged, updateNetworkState, addressesChanged, selectedIPChanged.
  destruct (negb (Nat.eqb _ _)); [reflexivity|].
  destruct (existsb _ (getAvailableIPv4Addresses host)); [reflexivity|].
  cbn [orb].
  destruct (negb (isNull (m_selectedIPAddress m))).
  - destruct (negb (existsb _ _)); [|discriminate].
    now rewrite orb_true_r.
  - discriminate.
Qed.

Lemma hasNetworkChanged_update_sample :
  hasNetworkChanged host_wired monitor_selected = true
  /\ fst (updateNetworkState host_wired monitor_selected) = true.
Proof.
  split; [reflexivity|].
  exact (hasNetworkChanged_update host_wired monitor_selected eq_refl).
Defined.

(** When no address is selected, or the selected one is available, a call
    repeated on the same host reports no change. *)
Lemma update_settles (host : Host) (m : Monitor) :
  isNull (m_selectedIPAddress m) = true
  \/ In (m_selectedIPAddress m) (getAvailableIPv4Addresses host) ->
  fst (updateNetworkState host (snd (updateNetworkState host m))) = false.
Proof.
  intros H.
  assert (S : selectedIPChanged (m_selectedIPAddress m)
                                (getAvailableIPv4Addresses host) = false).
  { destruct (selectedIPChanged _ _) eqn:E; [|reflexivity].
    apply selectedIPChanged_spec in E as [E1 E2].
    destruct H as [H|H]; [congruence | contradiction]. }
  destruct (fst (updateNetworkState host m)) eqn:F.
  - rewrite (proj1 (update_stores_snapshot host m) F).
    unfold updateNetworkState. cbn [m_lastAddresses m_lastNetworkInterfaces
                                    m_selectedIPAddress].
    now rewrite addressesChanged_same, interfacesChanged_same, S.
  - now rewrite (proj2 (update_stores_snapshot host m) F).
Qed.

Lemma update_settles_sample :
  fst (updateNetworkState host_wired
         (snd (updateNetworkState host_wired NetworkMonitor))) = false.
Proof.
  apply (update_settles host_wired NetworkMonitor). left. reflexivity.
Defined.

(** C10 (the code departs from the claim).  A monitor whose selected address
    10.0.0.9 is on no interface reports a change, stores the snapshot, and
    reports a change again on the same host. *)
Theorem update_repeats_change :
  fst (updateNetworkState host_wired monitor_selected) = true
  /\ m_lastAddresses (snd (updateNetworkState host_wired monitor_selected))
     = getAvailableIPv4Addresses host_wired
  /\ m_lastNetworkInterfaces (snd (updateNetworkState host_wired monitor_selected))
     = getActiveNetworkInterfaces host_wired
  /\ fst (updateNetworkState host_wired
            (snd (updateNetworkState host_wired monitor_selected))) = true
  /\ snd (updateNetworkState host_wired
            (snd (updateNetworkState host_wired monitor_selected)))
     = snd (updateNetworkState host_wired monitor_selected).
Proof. repeat split; reflexivity. Qed.

(** ** The interface and address lists *)

Lemma active_In (host : Host) (interface : QNetworkInterface) :
  In interface (getActiveNetworkInterfaces host)
  <-> In interface host /\ isActive interface = true.
Proof. rewrite getActiveNetworkInterfaces_filter. apply filter_In. Qed.

Lemma active_Forall (host : Host) :
  Forall (fun interface => isActive interface = true)
         (getActiveNetworkInterfaces host).
Proof. apply Forall_forall. intros i H. now apply active_In in H. Qed.

Lemma available_Forall (host : Host) :
  Forall (fun address => isUsable address = true)
         (getAvailableIPv4Addresses host).
Proof.
  apply Forall_forall. intros a H.
  rewrite getAvailableIPv4Addresses_flat_map in H.
  apply in_flat_map in H as (j & _ & H).
  destruct (isActive j); [|destruct H].
  now apply filter_In in H.
Qed.

Lemma isUsable_intro (address : QHostAddress) :
  protocol address = IPv4Protocol ->
  address <> LocalHost ->
  isInSubnet address subnet_169_254 = false ->
  isUsable address = true.
Proof.
  intros P L S. unfold isUsable. rewrite P, S. cbn.
  destruct (eqb address LocalHost) eqn:E; [|reflexivity].
  apply eqb_eq in E. contradiction.
Qed.

(** [getActiveNetworkInterfaces] returns the interfaces of the host that are
    up, running and not a loopback: all of them, only them, in the order of
    the host. *)
Lemma active_interfaces_exact (host : Host) :
  getActiveNetworkInterfaces host = filter isActive host
  /\ forall interface,
       In interface (getActiveNetworkInterfaces host)
       <-> In interface host
           /\ testFlag (flags interface) IsUp = true
           /\ testFlag (flags interface) IsRunning = true
           /\ testFlag (flags interface) IsLoopBack = false.
Proof.
  split; [apply getActiveNetworkInterfaces_filter|].
  intros i. rewrite active_In. unfold isActive.
  rewrite !andb_true_iff, negb_true_iff. tauto.
Qed.

Lemma flat_map_repeat (all : list QHostAddress) (host : Host) :
  flat_map (fun interface => if isActive interface then all else []) host
  = List.concat (repeat all (List.length (filter isActive host))).
Proof.
  induction host as [|i host IH]; cbn; [reflexivity|].
  destruct (isActive i); cbn; now rewrite IH.
Qed.

(** The list of [getAvailableIPv4Addresses] is the usable addresses of the
    whole host, once for every active interface; so it is empty when no
    interface is active and its length is the product of the two counts. *)
Lemma available_addresses_repeated (host : Host) :
  getAvailableIPv4Addresses host
  = List.concat (repeat (filter isUsable (allAddresses host))
                   (List.length (getActiveNetworkInterfaces host)))
  /\ List.length (getAvailableIPv4Addresses host)
     = (List.length (getActiveNetworkInterfaces host)
        * List.length (filter isUsable (allAddresses host)))%nat
  /\ (getActiveNetworkInterfaces host = [] -> getAvailableIPv4Addresses host = []).
Proof.
  assert (E : getAvailableIPv4Addresses host
              = List.concat (repeat (filter isUsable (allAddresses host))
                               (List.length (getActiveNetworkInterfaces host)))).
  { rewrite getAvailableIPv4Addresses_flat_map, getActiveNetworkInterfaces_filter.
    apply flat_map_repeat. }
  split; [exact E|]. split.
  - rewrite E. generalize (List.length (getActiveNetworkInterfaces host)) as k.
    induction k as [|k IH]; cbn; [reflexivity|].
    now rewrite length_app, IH.
  - intros H. rewrite E, H. reflexivity.
Qed.

(** As soon as one interface is active, every IPv4 address of every up
    interface other than localhost and the link-local ones is available. *)
Lemma available_addresses_complete (host : Host)
      (active interface : QNetworkInterface) (address : QHostAddress) :
  In active host -> isActive active = true ->
  In interface host -> testFlag (flags interface) IsUp = true ->
  In address (addressEntries interface) ->
  protocol address = IPv4Protocol ->
  address <> LocalHost ->
  isInSubnet address subnet_169_254 = false ->
  In address (getAvailableIPv4Addresses host).
Proof.
  intros Hj Aj Hi Ui Ha P L S.
  rewrite getAvailableIPv4Addresses_flat_map.
  apply in_flat_map. exists active. split; [exact Hj|]. rewrite Aj.
  apply filter_In. split; [|now apply isUsable_intro].
  unfold allAddresses. apply in_flat_map. exists interface.
  split; [|exact Ha]. apply filter_In. auto.
Qed.

Lemma available_addresses_complete_sample :
  In (ipv4 172 17 0 1) (getAvailableIPv4Addresses host_bridge).
Proof.
  apply (available_addresses_complete host_bridge eth0 docker0 (ipv4 172 17 0 1)).
  - left. reflexivity.
  - reflexivity.
  - right. left. reflexivity.
  - reflexivity.
  - left. reflexivity.
  - reflexivity.
  - discriminate.
  - reflexivity.
Defined.

(** ** The suggestion *)

Lemma suggested_unselected (host : Host) (m : Monitor) :
  (if negb (isNull (m_selectedIPAddress m))
   then findSelected (m_selectedIPAddress m) (getAvailableIPv4Addresses host)
   else None) = None ->
  getSuggestedIPv4Address host m
  = match findPreferred (getAvailableIPv4Addresses host) with
    | Some address => address
    | None => first (getAvailableIPv4Addresses host)
    end.
Proof.
  intros F. unfold getSuggestedIPv4Address. rewrite F.
  destruct (findPreferred (getAvailableIPv4Addresses host)); [reflexivity|].
  destruct (getAvailableIPv4Addresses host); reflexivity.
Qed.

Lemma suggested_In (host : Host) (m : Monitor) :
  getAvailableIPv4Addresses host <> [] ->
  In (getSuggestedIPv4Address host m) (getAvailableIPv4Addresses host).
Proof.
  intros Hne.
  destruct (if negb (isNull (m_selectedIPAddress m))
            then findSelected (m_selectedIPAddress m)
                              (getAvailableIPv4Addresses host)
            else None) as [a|] eqn:F.
  - unfold getSuggestedIPv4Address. rewrite F.
    destruct (negb (isNull (m_selectedIPAddress m))); [|discriminate].
    now apply findSelected_some in F.
  - rewrite (suggested_unselected _ _ F).
    destruct (findPreferred (getAvailableIPv4Addresses host)) as [a|] eqn:P.
    + destruct (findPreferred_some _ _ P) as (pre & post & E & _).
      rewrite E. apply in_or_app. right. now left.
    + destruct (getAvailableIPv4Addresses host); [congruence | now left].
Qed.

(** The suggestion is the null address exactly when no address is
    available; otherwise it is one of the available addresses, so an IPv4
    address that is neither localhost nor link-local. *)
Lemma suggestion_null_iff (host : Host) (m : Monitor) :
  (getSuggestedIPv4Address host m = NullAddress
   <-> getAvailableIPv4Addresses host = [])
  /\ (getAvailableIPv4Addresses host <> [] ->
      In (getSuggestedIPv4Address host m) (getAvailableIPv4Addresses host)
      /\ protocol (getSuggestedIPv4Address host m) = IPv4Protocol
      /\ getSuggestedIPv4Address host m <> LocalHost
      /\ isInSubnet (getSuggestedIPv4Address host m) subnet_169_254 = false).
Proof.
  assert (U : getAvailableIPv4Addresses host <> [] ->
              isUsable (getSuggestedIPv4Address host m) = true).
  { intros Hne. pose proof (available_Forall host) as F.
    rewrite Forall_forall in F. apply F. now apply suggested_In. }
  split.
  - split.
    + intros E. destruct (getAvailableIPv4Addresses host) as [|a l] eqn:A;
        [reflexivity|].
      assert (Hne : a :: l <> []) by discriminate.
      apply U in Hne. rewrite E in Hne. discriminate Hne.
    + intros E. unfold getSuggestedIPv4Address. rewrite E. cbn.
      destruct (negb (isNull (m_selectedIPAddress m))); reflexivity.
  - intros Hne. split; [now apply suggested_In|].
    apply isUsable_spec. now apply U.
Qed.

(** Selecting an address that is available makes it the suggestion;
    selecting one that is not available changes nothing: the suggestion is
    the one made with no selection. *)
Lemma selection_honoured (host : Host) (m : Monitor) (address : QHostAddress) :
  (In address (getAvailableIPv4Addresses host) ->
   getSuggestedIPv4Address host (setSelectedIPAddress address m) = address)
  /\ (~ In address (getAvailableIPv4Addresses host) ->
      getSuggestedIPv4Address host (setSelectedIPAddress address m)
      = getSuggestedIPv4Address host (setSelectedIPAddress NullAddress m)).
Proof.
  split.
  - intros Hin.
    assert (N : isNull address = false).
    { pose proof (available_Forall host) as F. rewrite Forall_forall in F.
      apply F in Hin. destruct address; cbn in *; congruence. }
    unfold getSuggestedIPv4Address. cbn [setSelectedIPAddress m_selectedIPAddress].
    rewrite N. cbn [negb].
    destruct (findSelected address (getAvailableIPv4Addresses host)) as [a|] eqn:F.
    + now apply findSelected_some in F.
    + apply findSelected_none in F. contradiction.
  - intros Hnot. rewrite !suggested_unselected; try reflexivity.
    cbn [setSelectedIPAddress m_selectedIPAddress].
    destruct (negb (isNull address)); [|reflexivity].
    now apply findSelected_none.
Qed.

(** ** Change detection *)

Lemma In_dec_address (address : QHostAddress) (l : list QHostAddress) :
  In address l \/ ~ In address l.
Proof.
  destruct (contains l address) eqn:C.
  - left. now apply contains_In.
  - right. intros H. apply contains_In in H. congruence.
Qed.


(** A list of addresses that is a rearrangement of the stored one is no
    change. *)
Lemma addressesChanged_permutation (currentAddresses lastAddresses : list QHostAddress) :
  Permutation currentAddresses lastAddresses ->
  addressesChanged currentAddresses lastAddresses = false.
Proof.
  intros P. unfold addressesChanged.
  rewrite (Permutation_length P), Nat.eqb_refl. cbn [negb].
  destruct (existsb _ currentAddresses) eqn:E; [|reflexivity].
  apply existsb_exists in E as (x & Hx & E).
  apply (Permutation_in _ P) in Hx. apply contains_In in Hx.
  now rewrite Hx in E.
Qed.

Lemma addressesChanged_permutation_sample :
  addressesChanged [ipv4 10 0 0 9; ipv4 192 168 1 10]
                   [ipv4 192 168 1 10; ipv4 10 0 0 9] = false.
Proof.
  apply addressesChanged_permutation. apply perm_swap.
Defined.

(** When [updateNetworkState] reports no change, the monitor is left as it
    was, there are as many available addresses as stored ones and each is a
    stored one, there are as many active interfaces as stored ones and each
    has the name of a stored one, and the selected address is null or
    available. *)
Lemma update_unchanged_sound (host : Host) (m : Monitor) :
  fst (updateNetworkState host m) = false ->
  snd (updateNetworkState host m) = m
  /\ List.length (getAvailableIPv4Addresses host) = List.length (m_lastAddresses m)
  /\ (forall address, In address (getAvailableIPv4Addresses host) ->
                      In address (m_lastAddresses m))
  /\ List.length (getActiveNetworkInterfaces host)
     = List.length (m_lastNetworkInterfaces m)
  /\ (forall interface, In interface (getActiveNetworkInterfaces host) ->
        exists lastInterface,
          In lastInterface (m_lastNetworkInterfaces m)
          /\ name interface = name lastInterface)
  /\ (isNull (m_selectedIPAddress m) = true
      \/ In (m_selectedIPAddress m) (getAvailableIPv4Addresses host)).
Proof.
  intros H. split; [now apply update_stores_snapshot|].
  unfold updateNetworkState in H.
  destruct (addressesChanged _ _) eqn:A; [discriminate H|].
  destruct (interfacesChanged _ _) eqn:I; [discriminate H|].
  destruct (selectedIPChanged _ _) eqn:S; [discriminate H|].
  clear H. unfold addressesChanged in A. unfold interfacesChanged in I.
  destruct (Nat.eqb _ _) eqn:LA in A; [|discriminate A].
  destruct (Nat.eqb _ _) eqn:LI in I; [|discriminate I].
  cbn [negb] in A, I. apply Nat.eqb_eq in LA, LI.
  split; [exact LA|]. split.
  { intros a Ha. apply contains_In.
    destruct (contains (m_lastAddresses m) a) eqn:C; [reflexivity|].
    assert (K : existsb (fun address => negb (contains (m_lastAddresses m) address))
                        (getAvailableIPv4Addresses host) = true).
    { apply existsb_exists. exists a. split; [exact Ha|]. now rewrite C. }
    congruence. }
  split; [exact LI|]. split.
  { intros i Hi.
    destruct (existsb (fun lastInterface => String.eqb (name i) (name lastInterface))
                      (m_lastNetworkInterfaces m)) eqn:C.
    - apply existsb_exists in C as (j & Hj & E). exists j.
      split; [exact Hj|]. now apply String.eqb_eq.
    - assert (K : existsb
                    (fun interface =>
                       negb (existsb (fun lastInterface =>
                                        String.eqb (name interface) (name lastInterface))
                                     (m_lastNetworkInterfaces m)))
                    (getActiveNetworkInterfaces host) = true).
      { apply existsb_exists. exists i. split; [exact Hi|]. now rewrite C. }
      congruence. }
  destruct (isNull (m_selectedIPAddress m)) eqn:N; [now left|right].
  destruct (In_dec_address (m_selectedIPAddress m) (getAvailableIPv4Addresses host))
    as [Y|Y]; [exact Y|].
  assert (K : selectedIPChanged (m_selectedIPAddress m)
                                (getAvailableIPv4Addresses host) = true)
    by (apply selectedIPChanged_spec; auto).
  congruence.
Qed.

Lemma update_unchanged_sound_sample :
  fst (updateNetworkState host_wired
         (snd (updateNetworkState host_wired NetworkMonitor))) = false
  /\ snd (updateNetworkState host_wired
            (snd (updateNetworkState host_wired NetworkMonitor)))
     = snd (updateNetworkState host_wired NetworkMonitor).
Proof.
  split; [reflexivity|].
  exact (proj1 (update_unchanged_sound host_wired
                  (snd (updateNetworkState host_wired NetworkMonitor)) eq_refl)).
Defined.

(** ** Monitoring, refreshing and the signals *)

Lemma update_fields (host : Host) (m : Monitor) :
  m_selectedIPAddress (snd (updateNetworkState host m)) = m_selectedIPAddress m
  /\ m_isMonitoring (snd (updateNetworkState host m)) = m_isMonitoring m.
Proof.
  unfold updateNetworkState.
  destruct (addressesChanged _ _ || interfacesChanged _ _ || selectedIPChanged _ _);
    split; reflexivity.
Qed.

Lemma update_setMonitoring (host : Host) (m : Monitor) (b : bool) :
  updateNetworkState host (setMonitoring b m)
  = (fst (updateNetworkState host m),
     setMonitoring b (snd (updateNetworkState host m))).
Proof.
  unfold updateNetworkState, setMonitoring. cbn.
  destruct (addressesChanged _ _ || interfacesChanged _ _ || selectedIPChanged _ _);
    reflexivity.
Qed.

(** The update of an updated monitor, on the same host. *)
Lemma update_repeat (host : Host) (m : Monitor) :
  isNull (m_selectedIPAddress m) = true
  \/ In (m_selectedIPAddress m) (getAvailableIPv4Addresses host) ->
  updateNetworkState host (snd (updateNetworkState host m))
  = (false, snd (updateNetworkState host m)).
Proof.
  intros H.
  assert (S : selectedIPChanged (m_selectedIPAddress m)
                                (getAvailableIPv4Addresses host) = false).
  { destruct (selectedIPChanged _ _) eqn:E; [|reflexivity].
    apply selectedIPChanged_spec in E as [E1 E2].
    destruct H as [H|H]; [congruence | contradiction]. }
  destruct (fst (updateNetworkState host m)) eqn:F.
  - rewrite (proj1 (update_stores_snapshot host m) F).
    unfold updateNetworkState at 1.
    cbn [m_lastAddresses m_lastNetworkInterfaces m_selectedIPAddress].
    now rewrite addressesChanged_same, interfacesChanged_same, S.
  - rewrite (proj2 (update_stores_snapshot host m) F).
    rewrite <- F at 1. rewrite <- (proj2 (update_stores_snapshot host m) F) at 3.
    now destruct (updateNetworkState host m).
Qed.

Lemma snapshot_after_update (host : Host) (m : Monitor) :
  m_lastActiveInterfaces m = map humanReadableName (m_lastNetworkInterfaces m) ->
  Forall (fun interface => isActive interface = true) (m_lastNetworkInterfaces m) ->
  Forall (fun address => isUsable address = true) (m_lastAddresses m) ->
  m_lastActiveInterfaces (snd (updateNetworkState host m))
  = map humanReadableName (m_lastNetworkInterfaces (snd (updateNetworkState host m)))
  /\ Forall (fun interface => isActive interface = true)
            (m_lastNetworkInterfaces (snd (updateNetworkState host m)))
  /\ Forall (fun address => isUsable address = true)
            (m_lastAddresses (snd (updateNetworkState host m))).
Proof.
  intros H1 H2 H3. unfold updateNetworkState.
  destruct (addressesChanged _ _ || interfacesChanged _ _ || selectedIPChanged _ _);
    cbn; auto using active_Forall, available_Forall.
Qed.

Lemma started_is_monitoring (intervalMs : Z) (host : Host) (o : Object) :
  m_isMonitoring (fields (startMonitoring intervalMs host o)) = true.
Proof.
  unfold startMonitoring.
  destruct (m_isMonitoring (fields o)) eqn:E; [exact E | reflexivity].
Qed.

(** A second [startMonitoring] is ignored: the monitor, its timer and the
    interval of the first call stay, whatever interval and host the second
    call comes with. *)
Lemma start_twice (i1 i2 : Z) (h1 h2 : Host) (o : Object) :
  startMonitoring i2 h2 (startMonitoring i1 h1 o) = startMonitoring i1 h1 o.
Proof.
  unfold startMonitoring at 1. now rewrite started_is_monitoring.
Qed.

(** [startMonitoring] followed by [stopMonitoring], on a monitor that was
    not monitoring: what is left is the monitor after one silent update,
    with the timer stopped at the interval given. *)
Lemma stop_after_start (intervalMs : Z) (host : Host) (o : Object) :
  m_isMonitoring (fields o) = false ->
  (0 <= intervalMs)%Z ->
  stopMonitoring (startMonitoring intervalMs host o)
  = mkObject (snd (updateNetworkState host (fields o))) (mkTimer false intervalMs).
Proof.
  intros H _. unfold stopMonitoring. rewrite started_is_monitoring. cbn [negb].
  unfold startMonitoring. rewrite H. cbn.
  destruct (update_fields host (fields o)) as [_ M]. rewrite H in M.
  destruct (snd (updateNetworkState host (fields o))); cbn in *. now subst.
Qed.

Lemma stop_after_start_sample :
  stopMonitoring (startMonitoring 3000 host_wired construct)
  = mkObject (snd (updateNetworkState host_wired (fields construct)))
             (mkTimer false 3000).
Proof.
  apply (stop_after_start 3000 host_wired construct); [reflexivity | lia].
Defined.

(** The change [startMonitoring] finds is never announced: when the timer
    fires on the same host, with no selected address or an available one,
    nothing is emitted and nothing changes. *)
Lemma start_then_timeout_silent (intervalMs : Z) (host : Host) (o : Object) :
  m_isMonitoring (fields o) = false ->
  (0 <= intervalMs)%Z ->
  isNull (m_selectedIPAddress (fields o)) = true
  \/ In (m_selectedIPAddress (fields o)) (getAvailableIPv4Addresses host) ->
  timeout host (startMonitoring intervalMs host o)
  = (startMonitoring intervalMs host o, []).
Proof.
  intros H _ S. unfold startMonitoring. rewrite H.
  unfold timeout, checkNetworkState. cbn [m_checkTimer timer_start running fields].
  rewrite update_setMonitoring, (update_repeat _ _ S). reflexivity.
Qed.

Lemma start_then_timeout_silent_sample :
  timeout host_wired (startMonitoring 3000 host_wired construct)
  = (startMonitoring 3000 host_wired construct, []).
Proof.
  apply (start_then_timeout_silent 3000 host_wired construct);
    [reflexivity | lia | left; reflexivity].
Defined.

Lemma multiple_spec (host : Host) :
  hasMultipleActiveNetworks host = true
  <-> (2 <= List.length (filter isActive host))%nat.
Proof.
  unfold hasMultipleActiveNetworks.
  rewrite getActiveNetworkInterfaces_filter, Nat.ltb_lt. lia.
Qed.

(** [checkNetworkState] stores what [updateNetworkState] stores.  When that
    reports no change it emits nothing and leaves the object alone; when it
    reports one it emits networkConfigurationChanged, then
    ipAddressesChanged with the addresses now available, then
    multipleNetworksDetected with the active interfaces if, and only if,
    there are two or more. *)
Lemma checkNetworkState_signals (host : Host) (o : Object) :
  fields (fst (checkNetworkState host o)) = snd (updateNetworkState host (fields o))
  /\ (fst (updateNetworkState host (fields o)) = false ->
      checkNetworkState host o = (o, []))
  /\ (fst (updateNetworkState host (fields o)) = true ->
      snd (checkNetworkState host o)
      = networkConfigurationChanged
          :: ipAddressesChanged (getAvailableIPv4Addresses host)
          :: (if (2 <=? List.length (filter isActive host))%nat
              then [multipleNetworksDetected (filter isActive host)]
              else [])).
Proof.
  unfold checkNetworkState.
  pose proof (update_stores_snapshot host (fields o)) as [T F].
  destruct (updateNetworkState host (fields o)) as [changed updated].
  cbn [fst snd] in *. split; [reflexivity|]. split.
  - intros ->. rewrite (F eq_refl). now destruct o.
  - intros ->. rewrite (T eq_refl). cbn [m_lastAddresses].
    rewrite getActiveNetworkInterfaces_filter.
    destruct (hasMultipleActiveNetworks host) eqn:M.
    + apply multiple_spec in M. apply Nat.leb_le in M. now rewrite M.
    + destruct (2 <=? List.length (filter isActive host))%nat eqn:L;
        [|reflexivity].
      apply Nat.leb_le in L. apply multiple_spec in L. congruence.
Qed.

(** [refreshNetwork] leaves the object as [checkNetworkState] would, and is
    silent exactly when that is silent; but all it ever emits is one
    networkConfigurationChanged: the new addresses are not announced. *)
Lemma refreshNetwork_announces (host : Host) (o : Object) :
  fst (refreshNetwork host o) = fst (checkNetworkState host o)
  /\ (snd (refreshNetwork host o) = [] <-> snd (checkNetworkState host o) = [])
  /\ (snd (refreshNetwork host o) = []
      \/ snd (refreshNetwork host o) = [networkConfigurationChanged]).
Proof.
  unfold refreshNetwork, checkNetworkState.
  destruct (updateNetworkState host (fields o)) as [[] updated]; cbn;
    repeat split; auto; discriminate.
Qed.

(** ** Histories *)

Lemma step_consistent (host : Host) (c : Call) (o : Object) :
  well_formed c -> consistent o -> consistent (fst (step host c o)).
Proof.
  intros _ (H1 & H2 & H3 & H4).
  destruct (snapshot_after_update host (fields o) H1 H2 H3) as (U1 & U2 & U3).
  destruct (update_fields host (fields o)) as [_ UM].
  destruct c as [i| | |a|]; cbn [step fst].
  - unfold startMonitoring. destruct (m_isMonitoring (fields o)) eqn:E;
      unfold consistent; cbn; repeat split; auto; congruence.
  - unfold stopMonitoring. destruct (m_isMonitoring (fields o)) eqn:E;
      unfold consistent; cbn; repeat split; auto; congruence.
  - unfold refreshNetwork.
    destruct (updateNetworkState host (fields o)) as [changed updated].
    unfold consistent; cbn in *; repeat split; auto; congruence.
  - unfold consistent; cbn; repeat split; auto.
  - unfold timeout. destruct (running (m_checkTimer o)) eqn:R.
    + unfold checkNetworkState.
      destruct (updateNetworkState host (fields o)) as [changed updated].
      unfold consistent; cbn in *; repeat split; auto; congruence.
    + unfold consistent; cbn; repeat split; auto; congruence.
Qed.

Lemma run_consistent (calls : list (Host * Call)) :
  forall o,
    Forall (fun hc => well_formed (snd hc)) calls ->
    consistent o -> consistent (fst (run calls o)).
Proof.
  induction calls as [|[host c] rest IH]; intros o W C; cbn; [exact C|].
  inversion W as [|x l Wc Wrest]; subst. cbn in Wc.
  pose proof (step_consistent host c o Wc C) as C1.
  destruct (step host c o) as [o1 s1]. cbn in C1.
  specialize (IH o1 Wrest C1).
  destruct (run rest o1) as [o2 s2]. exact IH.
Qed.

(** Once [stopMonitoring] was called the timer emits nothing: a tick
    leaves the monitor alone (for a monitor whose flag and timer agree, as
    they do on every monitor, see [reachable_invariant]). *)
Lemma stopped_is_silent (host : Host) (o : Object) :
  consistent o ->
  timeout host (stopMonitoring o) = (stopMonitoring o, []).
Proof.
  intros (_ & _ & _ & H). unfold timeout, stopMonitoring.
  destruct (m_isMonitoring (fields o)) eqn:E; cbn; [reflexivity|].
  now rewrite <- H.
Qed.

Lemma stopped_is_silent_sample :
  timeout host_two (stopMonitoring (startMonitoring 3000 host_wired construct))
  = (stopMonitoring (startMonitoring 3000 host_wired construct), []).
Proof.
  apply (stopped_is_silent host_two (startMonitoring 3000 host_wired construct)).
  repeat split; repeat constructor.
Defined.

(** Whatever is called on a new monitor and however the host changes in
    between: the stored interface names are the names of the stored
    interfaces, every stored interface was up, running and not a loopback,
    every stored address is a usable IPv4 address, and the monitor counts as
    monitoring exactly while its timer runs. *)
Lemma reachable_invariant (calls : list (Host * Call)) :
  Forall (fun hc => well_formed (snd hc)) calls ->
  consistent (fst (run calls construct)).
Proof.
  intros W. apply run_consistent; [exact W|].
  repeat split; constructor.
Qed.

Lemma reachable_invariant_sample :
  consistent
    (fst (run [(host_wired, CallStartMonitoring 3000);
               (host_two, TimerTimeout);
               (host_bridge, CallSetSelectedIPAddress (ipv4 10 0 0 9));
               (host_bridge, CallRefreshNetwork);
               (host_wired, CallStopMonitoring)]
              construct)).
Proof.
  apply reachable_invariant.
  repeat constructor; cbn; lia.
Defined.

Lemma step_sound (host : Host) (c : Call) (o : Object) :
  Forall sound (snd (step host c o)).
Proof.
  pose proof (proj1 (update_stores_snapshot host (fields o))) as T.
  destruct c as [i| | |a|]; cbn [step snd]; try constructor.
  - unfold refreshNetwork.
    destruct (updateNetworkState host (fields o)) as [[] updated]; cbn;
      repeat constructor.
  - unfold timeout. destruct (running (m_checkTimer o)); [|constructor].
    unfold checkNetworkState.
    destruct (updateNetworkState host (fields o)) as [[] updated];
      cbn [fst snd] in *; [|constructor].
    rewrite (T eq_refl). cbn [m_lastAddresses].
    constructor; [exact I|]. constructor; [apply available_Forall|].
    destruct (hasMultipleActiveNetworks host) eqn:M; constructor; [|constructor].
    cbn. split; [|apply active_Forall].
    apply multiple_spec in M. now rewrite getActiveNetworkInterfaces_filter.
Qed.

(** Whatever a monitor emits, in any history from any state:
    ipAddressesChanged carries usable IPv4 addresses only, and
    multipleNetworksDetected carries two or more interfaces, each up,
    running and not a loopback. *)
Lemma signals_sound (calls : list (Host * Call)) :
  forall o, Forall sound (snd (run calls o)).
Proof.
  induction calls as [|[host c] rest IH]; intros o; cbn; [constructor|].
  pose proof (step_sound host c o) as S.
  destruct (step host c o) as [o1 s1]. cbn in S.
  specialize (IH o1). destruct (run rest o1) as [o2 s2]. cbn in *.
  apply Forall_app. auto.
Qed.

End MonitorProofs.
